(** * Ranking and similarity engine of the AstraDB quality tool

    A shallow embedding of [src/search/similarity.py], [src/search/keyword.py]
    and [src/db/operations.py].  Python floats are binary64 values, embedded
    as Rocq's primitive floats; Python dictionaries are finite maps from
    field names to values; exceptions are an explicit error result. *)

From Stdlib Require Import ZArith List String Ascii Bool Lia Floats.
From Stdlib Require Import Sorting.Sorted.
From stdpp Require Import base option gmap strings.
Import ListNotations.

Local Open Scope Z_scope.

(** ** Exceptions and results *)

(** The exceptions the embedded code raises itself, plus the failures of
    the two collaborators (the astrapy collection and the embedding model). *)
Inductive exn : Type :=
| RuntimeError (msg : string)
| ValueError (msg : string)
| ZeroDivisionError
| TypeError (msg : string)
| KeyError (key : string)
| StoreError (msg : string)
| EmbedderError (msg : string).

Inductive result (A : Type) : Type :=
| Ok (a : A)
| Raise (e : exn).
Arguments Ok {A} a.
Arguments Raise {A} e.

#[global] Instance result_ret : MRet result := fun A a => Ok a.

#[global] Instance result_bind : MBind result := fun A B k r =>
  match r with
  | Ok a => k a
  | Raise e => Raise e
  end.

(** ** Python float arithmetic *)

Module PyFloat.

(** [a / b] on floats raises ZeroDivisionError when [b == 0]. *)
Definition truediv (a b : float) : result float :=
  if PrimFloat.eqb b 0%float then Raise ZeroDivisionError
  else Ok (PrimFloat.div a b).

(** [math.sqrt] raises ValueError on a negative argument. *)
Definition math_sqrt (x : float) : result float :=
  if PrimFloat.ltb x 0%float then Raise (ValueError "math domain error")
  else Ok (PrimFloat.sqrt x).

(** [sum(xs)]: left-to-right accumulation starting from 0, without the
    compensation that recent interpreters add for floats. *)
Definition sum (xs : list float) : float :=
  fold_left PrimFloat.add xs 0%float.

(** [int -> float] conversion, exact below 2^53. *)
Definition of_Z (z : Z) : float :=
  if Z.ltb z 0 then PrimFloat.opp (PrimFloat.of_uint63 (Uint63.of_Z (Z.opp z)))
  else PrimFloat.of_uint63 (Uint63.of_Z z).

(** [max(0, x)]: keeps the first argument unless the second is greater. *)
Definition max0 (x : float) : float :=
  if PrimFloat.ltb 0%float x then x else 0%float.

(** [min(x, y)]: keeps the first argument unless the second is smaller. *)
Definition min (x y : float) : float :=
  if PrimFloat.ltb y x then y else x.

End PyFloat.

(** ** Cosine similarity ([SimilaritySearch._cosine_similarity]) *)

Definition dot_product (vec1 vec2 : list float) : float :=
  PyFloat.sum (map (fun ab : float * float => PrimFloat.mul (fst ab) (snd ab))
                   (combine vec1 vec2)).

Definition sum_squares (vec : list float) : float :=
  PyFloat.sum (map (fun a : float => PrimFloat.mul a a) vec).

Definition _cosine_similarity (vec1 vec2 : list float) : result float :=
  let dot := dot_product vec1 vec2 in
  magnitude1 ← PyFloat.math_sqrt (sum_squares vec1);
  magnitude2 ← PyFloat.math_sqrt (sum_squares vec2);
  if PrimFloat.eqb magnitude1 0%float || PrimFloat.eqb magnitude2 0%float
  then Ok 0%float
  else PyFloat.truediv dot (PrimFloat.mul magnitude1 magnitude2).

(** The magnitude the code compares with zero. *)
Definition magnitude (vec : list float) : float :=
  PrimFloat.sqrt (sum_squares vec).

(** ** Python strings

    Text is a sequence of one-byte characters; case folding is the ASCII
    part of [str.lower]. *)

Module PyStr.

Definition lower_char (c : ascii) : ascii :=
  let n := nat_of_ascii c in
  if (Nat.leb 65 n && Nat.leb n 90)%bool then ascii_of_nat (n + 32) else c.

Fixpoint lower (s : string) : string :=
  match s with
  | EmptyString => EmptyString
  | String c t => String (lower_char c) (lower t)
  end.

Definition len (s : string) : Z := Z.of_nat (String.length s).

(** [sub in s] *)
Fixpoint contains (sub s : string) : bool :=
  String.prefix sub s ||
  match s with
  | EmptyString => false
  | String _ t => contains sub t
  end.

(** [s.find(sub)]: lowest index of an occurrence, -1 when there is none. *)
Fixpoint find_from (sub s : string) (i : Z) : Z :=
  if String.prefix sub s then i
  else match s with
       | EmptyString => -1
       | String _ t => find_from sub t (i + 1)
       end.

Definition find (s sub : string) : Z := find_from sub s 0.

(** [s.count(sub)]: number of non-overlapping occurrences, scanning from
    the left; [skip] characters of the last match are still to be passed. *)
Fixpoint count_from (sub s : string) (skip : nat) : Z :=
  match s with
  | EmptyString => if String.prefix sub EmptyString then 1 else 0
  | String _ t =>
      match skip with
      | S k => count_from sub t k
      | O => if String.prefix sub s
             then 1 + count_from sub t (String.length sub - 1)
             else count_from sub t 0
      end
  end.

Definition count (s sub : string) : Z := count_from sub s 0.

(** Whitespace as [str.split()] sees it in the one-byte range. *)
Definition is_space (c : ascii) : bool :=
  let n := nat_of_ascii c in
  ((Nat.leb 9 n && Nat.leb n 13) || (Nat.leb 28 n && Nat.leb n 32))%bool.

(** [s.split()]: maximal runs of non-whitespace characters. [cur] holds the
    current run, reversed. *)
Fixpoint split_go (cur : list ascii) (s : string) : list string :=
  match s with
  | EmptyString =>
      match cur with
      | [] => []
      | _ => [string_of_list_ascii (rev cur)]
      end
  | String c t =>
      if is_space c
      then match cur with
           | [] => split_go [] t
           | _ => string_of_list_ascii (rev cur) :: split_go [] t
           end
      else split_go (c :: cur) t
  end.

Definition split (s : string) : list string := split_go [] s.

(** [x in words] for a list of strings. *)
Definition mem (x : string) (l : list string) : bool :=
  existsb (String.eqb x) l.

End PyStr.

(** ** Documents

    A document is a Python dict from field names to JSON-like values. *)

Inductive value : Type :=
| VNull
| VStr (s : string)
| VNum (x : float)
| VVec (v : list float).

Abbreviation document := (gmap string value).

(** Truthiness of a value ([if v:]). *)
Definition truthy (v : value) : bool :=
  match v with
  | VNull => false
  | VStr s => negb (String.eqb s "")
  | VNum x => negb (PrimFloat.eqb x 0%float)
  | VVec v => match v with [] => false | _ => true end
  end.

(** Truthiness of an [Optional[str]] argument. *)
Definition truthy_str (o : option string) : bool :=
  match o with
  | Some s => negb (String.eqb s "")
  | None => false
  end.

(** [v == s] for a string literal [s]. *)
Definition eq_str (v : value) (s : string) : bool :=
  match v with
  | VStr t => String.eqb t s
  | _ => false
  end.

(** [doc.get(key, default)] *)
Definition get (doc : document) (key : string) (default : value) : value :=
  match doc !! key with
  | Some v => v
  | None => default
  end.

(** [doc[key]] *)
Definition getitem (doc : document) (key : string) : result value :=
  match doc !! key with
  | Some v => Ok v
  | None => Raise (KeyError key)
  end.

(** [x >= threshold] where [x] came out of a document. *)
Definition ge_float (x : value) (threshold : float) : result bool :=
  match x with
  | VNum s => Ok (PrimFloat.leb threshold s)
  | _ => Raise (TypeError "'>=' not supported")
  end.

(** ** The document store collaborator *)

(** Conditions of the filter language the engine builds. *)
Inductive cond : Type :=
| CEq (v : value)
| CNe (v : value).

Abbreviation filter_dict := (gmap string cond).

(** Keyword arguments of [collection.find]. *)
Record find_args : Type := FindArgs {
  fa_filter : option filter_dict;
  fa_sort : option value;
  fa_limit : option Z;
  fa_projection : list string;
  fa_include_similarity : bool
}.

(** The astrapy collection: each call either returns or raises. *)
Record Collection : Type := {
  coll_find : find_args -> result (list document);
  coll_find_one : filter_dict -> list string -> result (option document);
  coll_count_documents : filter_dict -> Z -> result nat
}.

Record AstraDBConnection : Type := {
  _connected : bool;
  _collection : option Collection
}.

Definition is_connected (conn : AstraDBConnection) : bool := _connected conn.

(** The [collection] property. *)
Definition collection (conn : AstraDBConnection) : result Collection :=
  match _connected conn, _collection conn with
  | true, Some c => Ok c
  | _, _ => Raise (RuntimeError "Not connected to AstraDB. Call connect() first.")
  end.

(** [filter_dict if filter_dict else None] *)
Definition filter_or_none (f : filter_dict) : option filter_dict :=
  if decide (dom f = (∅ : gset string)) then None else Some f.

(** ** Vector similarity search ([SimilaritySearch]) *)

Definition not_connected {A : Type} : result A :=
  Raise (RuntimeError "Not connected to AstraDB").

(** The threshold loop of [search_by_vector]. *)
Fixpoint filter_by_threshold (threshold : float) (results : list document)
  : result (list document) :=
  match results with
  | [] => Ok []
  | doc :: rest =>
      let similarity := get doc "$similarity" (VNum 0%float) in
      keep ← ge_float similarity threshold;
      filtered ← filter_by_threshold threshold rest;
      Ok (if keep : bool
          then <["similarity_score" := similarity]> doc :: filtered
          else filtered)
  end.

Definition vector_projection : list string :=
  ["_id"; "question"; "answer"; "category"; "source_file"; "document_date"].

(** The filter [search_by_vector] builds from its optional arguments. *)
Definition vector_filter (category source exclude_id : option string)
  : filter_dict :=
  let f : filter_dict := ∅ in
  let f := match category with
           | Some c => if truthy_str category
                       then <["category" := CEq (VStr c)]> f else f
           | None => f
           end in
  let f := match source with
           | Some s => if truthy_str source
                       then <["source_file" := CEq (VStr s)]> f else f
           | None => f
           end in
  match exclude_id with
  | Some i => if truthy_str exclude_id
              then <["_id" := CNe (VStr i)]> f else f
  | None => f
  end.

Definition vector_find_args (query_vector : value) (limit : Z)
    (category source exclude_id : option string) : find_args :=
  FindArgs (filter_or_none (vector_filter category source exclude_id))
           (Some query_vector) (Some limit) vector_projection true.

Definition search_by_vector (conn : AstraDBConnection) (query_vector : value)
    (threshold : float) (limit : Z) (category source exclude_id : option string)
  : result (list document) :=
  if negb (is_connected conn) then not_connected else
  coll ← collection conn;
  results ← coll_find coll
    (vector_find_args query_vector limit category source exclude_id);
  filter_by_threshold threshold results.

Definition find_similar_to_document (conn : AstraDBConnection)
    (document_id : string) (threshold : float) (limit : Z)
    (category : option string) : result (list document) :=
  if negb (is_connected conn) then not_connected else
  coll ← collection conn;
  source_doc ← coll_find_one coll {[ "_id" := CEq (VStr document_id) ]} ["$vector"];
  match source_doc with
  | None => Raise (ValueError ("Document " +:+ document_id +:+ " not found"))
  | Some sd =>
      if decide (dom sd = (∅ : gset string))
      then Raise (ValueError ("Document " +:+ document_id +:+ " not found"))
      else match sd !! "$vector" with
           | None =>
               Raise (ValueError ("Document " +:+ document_id +:+ " has no vector embedding"))
           | Some v =>
               search_by_vector conn v threshold limit category None
                                (Some document_id)
           end
  end.

(** ** Python list helpers *)

(** [l[:n]], including Python's reading of a negative bound. *)
Definition slice_to {A : Type} (l : list A) (n : Z) : list A :=
  if n <? 0 then firstn (Z.to_nat (Z.of_nat (length l) + n)) l
  else firstn (Z.to_nat n) l.

(** [l.sort(key=..., reverse=True)] on float keys that are totally ordered:
    descending, and elements with equal keys keep their original order.
    An element is put in front of the first element whose key is not
    greater than its own. *)
Fixpoint insert_desc {A : Type} (key : A -> float) (x : A) (l : list A) : list A :=
  match l with
  | [] => [x]
  | y :: l' =>
      if PrimFloat.ltb (key x) (key y) then y :: insert_desc key x l'
      else x :: l
  end.

Definition sort_desc {A : Type} (key : A -> float) (l : list A) : list A :=
  fold_right (insert_desc key) [] l.

(** The numeric score stored under [name], as the sort key reads it. *)
Definition score_of (name : string) (doc : document) : float :=
  match doc !! name with
  | Some (VNum x) => x
  | _ => 0%float
  end.

(** ** Text-driven similarity search, with the embedder's calls recorded *)

(** A computation together with the list of inputs handed to
    [embedding_model.encode], in call order. *)
Definition traced (A : Type) : Type := (result A * list value)%type.

#[global] Instance traced_ret : MRet traced := fun A a => (Ok a, []).

#[global] Instance traced_bind : MBind traced := fun A B k m =>
  match fst m with
  | Ok a => (fst (k a), snd m ++ snd (k a))
  | Raise e => (Raise e, snd m)
  end.

Definition lift {A : Type} (r : result A) : traced A := (r, []).

Definition encoder : Type := value -> result (list float).

Definition encode (model : encoder) (text : value) : traced (list float) :=
  (model text, [text]).

Record SimilaritySearch : Type := {
  connection : AstraDBConnection;
  (** outcome of the lazily loaded [embedding_model] property *)
  embedding_model : result encoder
}.

Definition no_answer : list string := ["N/A"; "unanswered"; ""].

(** Body of the loop over the vector-search results. *)
Definition enhance (model : encoder) (query_embedding : list float)
    (doc : document) : traced document :=
  let question := get doc "question" (VStr "") in
  let answer := get doc "answer" (VStr "") in
  question_similarity ←
    (if truthy question && negb (eq_str question "N/A")
     then question_embedding ← encode model question;
          lift (_cosine_similarity query_embedding question_embedding)
     else mret 0%float : traced float);
  answer_similarity ←
    (if truthy answer && negb (existsb (eq_str answer) no_answer)
     then answer_embedding ← encode model answer;
          lift (_cosine_similarity query_embedding answer_embedding)
     else mret 0%float : traced float);
  let doc := <["question_similarity" := VNum question_similarity]> doc in
  let doc := <["answer_similarity" := VNum answer_similarity]> doc in
  let doc := <["overall_similarity" := get doc "similarity_score" (VNum 0%float)]> doc in
  (mret doc : traced document).

Fixpoint enhance_all (model : encoder) (query_embedding : list float)
    (results : list document) : traced (list document) :=
  match results with
  | [] => mret []
  | doc :: rest =>
      d ← enhance model query_embedding doc;
      ds ← enhance_all model query_embedding rest;
      mret (d :: ds)
  end.

Definition search_by_text (ss : SimilaritySearch) (query_text : string)
    (threshold : float) (limit : Z) (category source : option string)
  : traced (list document) :=
  if negb (is_connected (connection ss)) then lift not_connected else
  model ← lift (embedding_model ss);
  query_embedding ← encode model (VStr query_text);
  results ← lift (search_by_vector (connection ss) (VVec query_embedding)
                    threshold (limit * 3) category source None);
  enhanced_results ← enhance_all model query_embedding results;
  mret (slice_to (sort_desc (score_of "overall_similarity") enhanced_results) limit).

(** ** Duplicate cluster finder and keyword search *)

Section Engine.

(** Python's [str()] of a float, which the embedding leaves open. *)
Variable float_repr : float -> string.

(** [str(v)] *)
Definition py_str (v : value) : string :=
  match v with
  | VNull => "None"
  | VStr s => s
  | VNum x => float_repr x
  | VVec xs => "[" +:+ String.concat ", " (map float_repr xs) +:+ "]"
  end.

Record duplicate_group : Type := DuplicateGroup {
  primary_id : string;
  primary_question : value;
  duplicates : list document;
  count : Z
}.

(** [for sim_doc in similar: processed_ids.add(str(sim_doc["_id"]))] *)
Fixpoint mark_processed (similar : list document) (processed_ids : gset string)
  : result (gset string) :=
  match similar with
  | [] => Ok processed_ids
  | sim_doc :: rest =>
      i ← getitem sim_doc "_id";
      mark_processed rest ({[ py_str i ]} ∪ processed_ids)
  end.

(** The loop over the fetched documents, with its two accumulators. *)
Fixpoint scan_documents (conn : AstraDBConnection) (threshold : float)
    (limit_per_query : Z) (documents : list document)
    (processed_ids : gset string) (duplicate_groups : list duplicate_group)
  : result (list duplicate_group) :=
  match documents with
  | [] => Ok duplicate_groups
  | doc :: rest =>
      i ← getitem doc "_id";
      let doc_id := py_str i in
      if decide (doc_id ∈ processed_ids)
      then scan_documents conn threshold limit_per_query rest
             processed_ids duplicate_groups
      else
        similar ← find_similar_to_document conn doc_id threshold
                    limit_per_query None;
        match similar with
        | [] => scan_documents conn threshold limit_per_query rest
                  processed_ids duplicate_groups
        | _ :: _ =>
            let group :=
              DuplicateGroup doc_id (get doc "question" (VStr "")) similar
                             (Z.of_nat (length similar) + 1) in
            processed_ids ← mark_processed similar ({[ doc_id ]} ∪ processed_ids);
            scan_documents conn threshold limit_per_query rest
              processed_ids (duplicate_groups ++ [group])
        end
  end.

Definition find_potential_duplicates (conn : AstraDBConnection)
    (threshold : float) (limit_per_query : Z) (sample_size : option Z)
  : result (list duplicate_group) :=
  if negb (is_connected conn) then not_connected else
  coll ← collection conn;
  documents ← coll_find coll
    (FindArgs None None
       (match sample_size with
        | Some n => if n =? 0 then None else Some n
        | None => None
        end)
       ["_id"; "question"; "$vector"] false);
  scan_documents conn threshold limit_per_query documents ∅ [].

(** Identifiers a group mentions: its primary, then its duplicates. *)
Definition duplicate_ids (g : duplicate_group) : list string :=
  omap (fun d : document => py_str <$> d !! "_id") (duplicates g).

Definition group_ids (g : duplicate_group) : list string :=
  primary_id g :: duplicate_ids g.

(** *** Relevance scorer ([KeywordSearch._calculate_relevance]) *)

Definition field_weights (field : string) : float :=
  if String.eqb field "question" then 2%float
  else if String.eqb field "answer" then 1%float
  else if String.eqb field "category" then 0.5%float
  else if String.eqb field "source_file" then 0x1.3333333333333p-2%float (* 0.3 *)
  else 1%float.

(** [keyword if case_sensitive else keyword.lower()] *)
Definition fold_case (case_sensitive : bool) (s : string) : string :=
  if case_sensitive then s else PyStr.lower s.

(** [a / b] on integers. *)
Definition int_truediv (a b : Z) : result float :=
  if b =? 0 then Raise ZeroDivisionError
  else Ok (PrimFloat.div (PyFloat.of_Z a) (PyFloat.of_Z b)).

(** The [field_score] one field contributes; [None] when the field is
    skipped (absent, empty, or without an occurrence). *)
Definition field_score (doc : document) (keyword_lower : string)
    (case_sensitive : bool) (field : string) : result (option float) :=
  match doc !! field with
  | None => Ok None
  | Some v =>
      if negb (truthy v) then Ok None else
      let text := py_str v in
      let text_lower := fold_case case_sensitive text in
      let occurrences := PyStr.count text_lower keyword_lower in
      if 0 <? occurrences then
        let weight := field_weights field in
        let occurrence_score := Z.min (occurrences * 10) 50 in
        let position := PyStr.find text_lower keyword_lower in
        ratio ← int_truediv position (PyStr.len text);
        let position_score :=
          PyFloat.max0 (PrimFloat.sub 20%float (PrimFloat.mul ratio 20%float)) in
        let words := PyStr.split text_lower in
        let exact_match_bonus := if PyStr.mem keyword_lower words then 15 else 0 in
        Ok (Some (PrimFloat.mul
                    (PrimFloat.add
                       (PrimFloat.add (PyFloat.of_Z occurrence_score) position_score)
                       (PyFloat.of_Z exact_match_bonus))
                    weight))
      else Ok None
  end.

(** The loop over [fields], accumulating [score]. *)
Fixpoint score_fields (doc : document) (keyword_lower : string)
    (case_sensitive : bool) (score : float) (fields : list string)
  : result float :=
  match fields with
  | [] => Ok score
  | field :: rest =>
      contribution ← field_score doc keyword_lower case_sensitive field;
      score_fields doc keyword_lower case_sensitive
        (match contribution with
         | Some x => PrimFloat.add score x
         | None => score
         end)
        rest
  end.

Definition _calculate_relevance (doc : document) (keyword : string)
    (fields : list string) (case_sensitive : bool) : result float :=
  let keyword_lower := fold_case case_sensitive keyword in
  score ← score_fields doc keyword_lower case_sensitive 0%float fields;
  Ok (PyFloat.min score 100%float).

(** *** Keyword search ([KeywordSearch.search]) *)

(** The inner loop with [break]: some requested field holds the keyword. *)
Definition matches (doc : document) (keyword_lower : string)
    (fields : list string) (case_sensitive : bool) : bool :=
  existsb
    (fun field =>
       match doc !! field with
       | Some v =>
           truthy v &&
           PyStr.contains keyword_lower (fold_case case_sensitive (py_str v))
       | None => false
       end)
    fields.

Fixpoint matching_docs (keyword : string) (fields : list string)
    (case_sensitive : bool) (all_docs : list document)
  : result (list document) :=
  match all_docs with
  | [] => Ok []
  | doc :: rest =>
      if matches doc (fold_case case_sensitive keyword) fields case_sensitive
      then
        score ← _calculate_relevance doc keyword fields case_sensitive;
        found ← matching_docs keyword fields case_sensitive rest;
        Ok (<["relevance_score" := VNum score]> doc :: found)
      else matching_docs keyword fields case_sensitive rest
  end.

Definition keyword_projection : list string :=
  ["_id"; "question"; "answer"; "category"; "source_file"; "document_date";
   "upload_timestamp"].

(** [fields or ['question', 'answer']] *)
Definition fields_or_default (fields : option (list string)) : list string :=
  match fields with
  | Some (f :: fs) => f :: fs
  | _ => ["question"; "answer"]
  end.

Definition base_filter (category source : option string) : filter_dict :=
  let f : filter_dict := ∅ in
  let f := match category with
           | Some c => if truthy_str category
                       then <["category" := CEq (VStr c)]> f else f
           | None => f
           end in
  match source with
  | Some s => if truthy_str source
              then <["source_file" := CEq (VStr s)]> f else f
  | None => f
  end.

Definition keyword_find_args (category source : option string) (limit : Z)
  : find_args :=
  let fetch_limit := Z.min (limit * 10) 1000 in
  FindArgs (filter_or_none (base_filter category source)) None
           (Some fetch_limit) keyword_projection false.

Definition search (conn : AstraDBConnection) (keyword : string)
    (fields : option (list string)) (category source : option string)
    (limit : Z) (case_sensitive : bool) : result (list document) :=
  if negb (is_connected conn) then not_connected else
  let fields := fields_or_default fields in
  coll ← collection conn;
  all_docs ← coll_find coll (keyword_find_args category source limit);
  found ← matching_docs keyword fields case_sensitive all_docs;
  Ok (slice_to (sort_desc (score_of "relevance_score") found) limit).

End Engine.

(** ** Counting ([DatabaseOperations.count_documents]) *)

Definition count_documents (conn : AstraDBConnection)
    (filter_arg : option filter_dict) : Z :=
  let filter_arg := default (∅ : filter_dict) filter_arg in
  match coll ← collection conn; coll_count_documents coll filter_arg 1000 with
  | Ok n => Z.of_nat n
  | Raise _ => -1
  end.

(** ** A reference document store

    An in-memory collection with the behaviour the engine relies on:
    equality and [$ne] filters, ranking by similarity to the sort vector
    with the similarity attached, limits, projections, and a bounded
    count.  It serves to run the engine on concrete corpora. *)

Module MemStore.

Fixpoint vec_eqb (u v : list float) : bool :=
  match u, v with
  | [], [] => true
  | x :: u', y :: v' => PrimFloat.eqb x y && vec_eqb u' v'
  | _, _ => false
  end.

Definition value_eqb (a b : value) : bool :=
  match a, b with
  | VNull, VNull => true
  | VStr s, VStr t => String.eqb s t
  | VNum x, VNum y => PrimFloat.eqb x y
  | VVec u, VVec v => vec_eqb u v
  | _, _ => false
  end.

Definition holds (doc : document) (field : string) (c : cond) : bool :=
  match c, doc !! field with
  | CEq v, Some w => value_eqb w v
  | CEq _, None => false
  | CNe v, Some w => negb (value_eqb w v)
  | CNe _, None => true
  end.

Definition satisfies (f : filter_dict) (doc : document) : bool :=
  forallb (fun kc : string * cond => holds doc (fst kc) (snd kc)) (map_to_list f).

Definition project (keys : list string) (doc : document) : document :=
  filter (fun kv : string * value => fst kv ∈ "_id" :: keys) doc.

(** The store's native similarity for the cosine metric. *)
Definition native_similarity (q v : list float) : float :=
  let cos := PrimFloat.div (dot_product q v)
               (PrimFloat.mul (magnitude q) (magnitude v)) in
  PrimFloat.div (PrimFloat.add 1%float cos) 2%float.

(** A candidate paired with its similarity; documents without a vector
    do not take part in a vector search. *)
Definition rank (q : list float) (doc : document) : option (float * document) :=
  match doc !! "$vector" with
  | Some (VVec v) => Some (native_similarity q v, doc)
  | _ => None
  end.

Definition limited {A : Type} (limit : option Z) (l : list A) : list A :=
  match limit with
  | Some n => firstn (Z.to_nat n) l
  | None => l
  end.

Definition find (docs : list document) (args : find_args)
  : result (list document) :=
  let cands :=
    match fa_filter args with
    | Some f => List.filter (satisfies f) docs
    | None => docs
    end in
  match fa_sort args with
  | None =>
      Ok (map (project (fa_projection args)) (limited (fa_limit args) cands))
  | Some (VVec q) =>
      let ranked := sort_desc fst (omap (rank q) cands) in
      Ok (map (fun sd : float * document =>
                 let d := project (fa_projection args) (snd sd) in
                 if fa_include_similarity args
                 then <["$similarity" := VNum (fst sd)]> d else d)
              (limited (fa_limit args) ranked))
  | Some _ => Raise (StoreError "sort vector is not a list of numbers")
  end.

Definition find_one (docs : list document) (f : filter_dict)
    (projection : list string) : result (option document) :=
  Ok (project projection <$> head (List.filter (satisfies f) docs)).

Definition count_documents (docs : list document) (f : filter_dict)
    (upper_bound : Z) : result nat :=
  let n := length (List.filter (satisfies f) docs) in
  if upper_bound <? Z.of_nat n
  then Raise (StoreError "too many documents to count")
  else Ok n.

Definition collection (docs : list document) : Collection :=
  {| coll_find := find docs;
     coll_find_one := find_one docs;
     coll_count_documents := count_documents docs |}.

Definition connect (docs : list document) : AstraDBConnection :=
  {| _connected := true; _collection := Some (collection docs) |}.

End MemStore.

(** ** Concrete corpora *)

Definition qa (id question answer : string) (vector : list float) : document :=
  <["_id" := VStr id]> (<["question" := VStr question]>
    (<["answer" := VStr answer]> (<["$vector" := VVec vector]> ∅))).

(** Three questions whose vectors lie at growing angles: the middle one is
    close to both ends, the ends are not close to each other. *)
Definition chain_corpus : list document :=
  [ qa "A" "How do I reset my password?" "Use the reset link." [1%float; 0%float];
    qa "B" "How can I reset a password?" "Use the reset link." [2%float; 1%float];
    qa "C" "How can a password be changed?" "In the settings." [1%float; 1%float] ].

Definition plain_repr (x : float) : string := "0.0".


Definition ninety : float := 0x1.ccccccccccccdp-1%float. (* 0.90 *)

(** A store that answers every query with the same documents. *)
Definition canned_collection (docs : list document) : Collection :=
  {| coll_find := fun _ => Ok docs;
     coll_find_one := fun _ _ => Ok (head docs);
     coll_count_documents := fun _ _ => Ok (length docs) |}.

Definition canned_connection (docs : list document) : AstraDBConnection :=
  {| _connected := true; _collection := Some (canned_collection docs) |}.

(** Three ranked candidates as a vector search hands them back, with
    native similarities 0.984375, 0.90625 and 0.625. *)
Definition ranked_candidates : list document :=
  [ <["$similarity" := VNum 0.984375%float]> (<["_id" := VStr "A"]> ∅);
    <["$similarity" := VNum 0.90625%float]> (<["_id" := VStr "B"]> ∅);
    <["$similarity" := VNum 0.625%float]> (<["_id" := VStr "C"]> ∅) ].

(** A question stored without an embedding. *)
Definition unembedded_corpus : list document :=
  [ <["_id" := VStr "N"]> (<["question" := VStr "Who approves access?"]>
      (<["answer" := VStr "unanswered"]> ∅)) ].

(** A candidate of the text-driven search whose question is a
    placeholder. *)
Definition unasked_candidate : document :=
  <["similarity_score" := VNum ninety]>
    (qa "Q" "N/A" "Use the reset link." [1%float; 0%float]).

(** A candidate of the text-driven search that has no answer yet. *)
Definition unanswered_candidate : document :=
  <["similarity_score" := VNum ninety]>
    (qa "U" "Who approves access?" "unanswered" [1%float; 0%float]).

(** An embedder that maps every text to the same unit vector. *)
Definition constant_encoder : encoder := fun _ => Ok [1%float; 0%float].

Definition sample_search : SimilaritySearch :=
  {| connection := MemStore.connect chain_corpus;
     embedding_model := Ok constant_encoder |}.


(** A store that holds one source document apart and answers every
    search with the same neighbours. *)
Definition source_collection (source : document) (neighbours : list document)
  : Collection :=
  {| coll_find := fun _ => Ok neighbours;
     coll_find_one := fun _ _ => Ok (Some source);
     coll_count_documents := fun _ _ => Ok (S (length neighbours)) |}.

Definition source_connection (source : document) (neighbours : list document)
  : AstraDBConnection :=
  {| _connected := true; _collection := Some (source_collection source neighbours) |}.

(** The source of the ranked candidates: it shares no identifier with them. *)
Definition ranked_source : document :=
  <["$vector" := VVec [1%float; 0%float]]> (<["_id" := VStr "S"]> ∅).

(** ** Pairwise comparison ([SimilaritySearch.compare_questions]) *)

Record compared_document : Type := ComparedDocument {
  cd_id : string;
  cd_question : value;
  cd_answer : value
}.

Record comparison : Type := Comparison {
  document1 : compared_document;
  document2 : compared_document;
  similarity_score : value;
  is_likely_duplicate : bool
}.

Definition comparison_projection : list string :=
  ["_id"; "question"; "answer"; "$vector"].

Section Comparison.

Variable float_repr : float -> string.

(** The loop that looks for the second document among the results;
    0.0 when it is not there. *)
Fixpoint find_doc2 (similar : list document) (question2_id : string)
  : result value :=
  match similar with
  | [] => Ok (VNum 0%float)
  | r :: rest =>
      i ← getitem r "_id";
      if String.eqb (py_str float_repr i) question2_id
      then Ok (get r "similarity_score" (VNum 0%float))
      else find_doc2 rest question2_id
  end.

Definition compare_questions (conn : AstraDBConnection)
    (question1_id question2_id : string) : result comparison :=
  if negb (is_connected conn) then not_connected else
  coll ← collection conn;
  doc1 ← coll_find_one coll {[ "_id" := CEq (VStr question1_id) ]}
           comparison_projection;
  doc2 ← coll_find_one coll {[ "_id" := CEq (VStr question2_id) ]}
           comparison_projection;
  match doc1, doc2 with
  | Some d1, Some d2 =>
      if decide (dom d1 = (∅ : gset string) \/ dom d2 = (∅ : gset string))
      then Raise (ValueError "One or both documents not found")
      else
        match d1 !! "$vector", d2 !! "$vector" with
        | Some v1, Some _ =>
            similar ← search_by_vector conn v1 0%float 1 None None
                        (Some question1_id);
            score ← find_doc2 similar question2_id;
            likely ← ge_float score 0x1.ccccccccccccdp-1%float (* 0.90 *);
            Ok (Comparison
                  (ComparedDocument question1_id (get d1 "question" (VStr ""))
                                    (get d1 "answer" (VStr "")))
                  (ComparedDocument question2_id (get d2 "question" (VStr ""))
                                    (get d2 "answer" (VStr "")))
                  score likely)
        | _, _ =>
            Raise (ValueError "One or both documents missing vector embeddings")
        end
  | _, _ => Raise (ValueError "One or both documents not found")
  end.

End Comparison.

(** Two ranked candidates with their texts; the second has no answer yet. *)
Definition answered_candidates : list document :=
  [ <["$similarity" := VNum 0.984375%float]>
      (qa "A" "How do I reset my password?" "Use the reset link."
          [1%float; 0%float]);
    <["$similarity" := VNum 0.90625%float]>
      (qa "U" "Who approves access?" "unanswered" [0%float; 1%float]) ].

Definition text_search : SimilaritySearch :=
  {| connection := canned_connection answered_candidates;
     embedding_model := Ok constant_encoder |}.

(** ** Database operations ([DatabaseOperations]) *)

(** What [update_one] hands back: [update_info] when the attribute is
    there. *)
Record update_result : Type := UpdateResult {
  update_info : option (gmap string value)
}.

(** The write side of the astrapy collection. *)
Record WriteCollection : Type := {
  wc_find_one : filter_dict -> result (option document);
  wc_update_one : filter_dict -> document -> bool -> result update_result
}.

(** [x > 0] where [x] came out of [update_info]. *)
Definition gt_zero (x : value) : result bool :=
  match x with
  | VNum n => Ok (PrimFloat.ltb 0%float n)
  | _ => Raise (TypeError "'>' not supported")
  end.

(** [x == 1.0] *)
Definition eq_one (x : value) : bool :=
  match x with
  | VNum n => PrimFloat.eqb n 1%float
  | _ => false
  end.

(** [DatabaseOperations.get_documents]: [skip] is accepted and not
    passed on. *)
Definition get_documents (conn : AstraDBConnection)
    (filter_arg : option filter_dict) (limit skip : Z)
    (projection : option (list string)) : result (list document) :=
  let filter_arg := default (∅ : filter_dict) filter_arg in
  coll ← collection conn;
  coll_find coll
    (FindArgs (Some filter_arg) None (Some limit)
              (match projection with
               | Some (p :: ps) => p :: ps
               | _ => []
               end)
              false).

(** The fetch loop of the [delete-unanswered] command; [None] when the
    loop is still running after [fuel] rounds. *)
Fixpoint fetch_unanswered (fuel : nat) (conn : AstraDBConnection)
    (unanswered_docs : list document) : option (result (list document)) :=
  match fuel with
  | O => None
  | S fuel' =>
      let batch_size := 1000 in
      match get_documents conn (Some {[ "answer" := CEq (VStr "unanswered") ]})
              batch_size 0 None with
      | Raise e => Some (Raise e)
      | Ok [] => Some (Ok unanswered_docs)
      | Ok (b :: bs) =>
          let unanswered_docs := unanswered_docs ++ b :: bs in
          if Z.of_nat (length (b :: bs)) <? batch_size
          then Some (Ok unanswered_docs)
          else fetch_unanswered fuel' conn unanswered_docs
      end
  end.

Section Operations.

Variable float_repr : float -> string.

(** [DatabaseOperations.get_document_by_id] *)
Definition get_document_by_id (collection : result WriteCollection)
    (doc_id : string) : result (option document) :=
  coll ← collection;
  wc_find_one coll {[ "_id" := CEq (VStr doc_id) ]}.

(** [update_data.get(key, current_doc.get(key, ''))] *)
Definition merged_field (update_data current_doc : document) (key : string)
  : value :=
  get update_data key (get current_doc key (VStr "")).

(** The text the new vector is generated from. *)
Definition combined_text (update_data current_doc : document) : value :=
  let question := merged_field update_data current_doc "question" in
  let answer := merged_field update_data current_doc "answer" in
  if truthy question && truthy answer
     && negb (existsb (eq_str answer) ["unanswered"; "N/A"; ""])
  then VStr (py_str float_repr question +:+ " " +:+ py_str float_repr answer)
  else question.

(** The inner [try]: load the model and encode; any failure leaves the
    update without a vector. *)
Definition regenerate (model : result encoder) (text : value)
    (update_data : document) : traced document :=
  match model with
  | Ok m =>
      match m text with
      | Ok new_vector => (Ok (<["$vector" := VVec new_vector]> update_data), [text])
      | Raise _ => (Ok update_data, [text])
      end
  | Raise _ => (Ok update_data, [])
  end.

(** [DatabaseOperations.update_document]; [now] is the timestamp taken
    at the start and [model] the outcome of loading the embedding model. *)
Definition update_document (collection : result WriteCollection)
    (model : result encoder) (now : string) (doc_id : string)
    (update_data : document) (upsert regenerate_vector : bool) : traced bool :=
  let update_data := <["last_modified" := VStr now]> update_data in
  update_data ←
    (if regenerate_vector
        && (bool_decide (is_Some (update_data !! "question"))
            || bool_decide (is_Some (update_data !! "answer")))
     then
       current_doc ← lift (get_document_by_id collection doc_id);
       match current_doc with
       | Some cd =>
           if decide (dom cd = (∅ : gset string)) then mret update_data
           else regenerate model (combined_text update_data cd) update_data
       | None => mret update_data
       end
     else mret update_data : traced document);
  coll ← lift collection;
  outcome ← lift (wc_update_one coll {[ "_id" := CEq (VStr doc_id) ]}
                    update_data upsert);
  match update_info outcome with
  | Some info =>
      matched ← lift (gt_zero (get info "n" (VNum 0%float)));
      let ok_status := eq_one (get info "ok" (VNum 0%float)) in
      (mret (matched && ok_status) : traced bool)
  | None => (mret true : traced bool)
  end.

End Operations.

(** * Vocabulary of the statements *)

(** Classes of binary64 values, read off their specification. *)
Module Binary64.

Definition sf_nonneg (s : spec_float) : bool :=
  match s with
  | S754_zero _ => true
  | S754_infinity false => true
  | S754_finite false _ _ => true
  | _ => false
  end.

Definition sf_nan (s : spec_float) : bool :=
  match s with
  | S754_nan => true
  | _ => false
  end.

Definition sf_signed (sx : bool) (s : spec_float) : Prop :=
  s = S754_zero sx \/ s = S754_infinity sx \/ exists m e, s = S754_finite sx m e.

(** Not negative: a zero of either sign, a positive number or +infinity. *)
Definition nonneg (x : float) : bool := sf_nonneg (Prim2SF x).

(** Not negative, or not a number. *)
Definition nonneg_or_nan (x : float) : bool :=
  sf_nonneg (Prim2SF x) || sf_nan (Prim2SF x).

(** A float is comparable when it is a number: [x == x]. *)
Definition comparable (x : float) : bool := PrimFloat.eqb x x.



End Binary64.

(** [a] may stand before [b] in a descending list. *)
Definition desc {A : Type} (key : A -> float) (a b : A) : Prop := (key b <=? key a)%float = true.

(** What a kept result looks like: a candidate with its native similarity
    copied under [similarity_score], that similarity reaching the threshold. *)
Definition kept_from (threshold : float) (cands : list document)
    (r : document) : Prop :=
  exists d s,
    In d cands /\ d !! "$similarity" = Some (VNum s) /\
    r = <["similarity_score" := VNum s]> d /\
    r !! "similarity_score" = Some (VNum s) /\
    (threshold <=? s)%float = true /\ (s <? threshold)%float = false.

(** The inputs [enhance] hands to the embedder for the question of a
    candidate. *)
Definition embedded_question (doc : document) : list value :=
  let question := get doc "question" (VStr "") in
  if truthy question && negb (eq_str question "N/A") then [question] else [].

(** [sub] occurs in [s] as a contiguous piece. *)
Definition occurs_in (sub s : string) : Prop :=
  exists pre post, s = pre +:+ sub +:+ post.

Section Vocabulary.

Variable float_repr : float -> string.

(** Every identifier of every emitted group has been marked as processed. *)
Definition covered (processed_ids : gset string)
    (groups : list duplicate_group) : Prop :=
  forall g id, g ∈ groups -> id ∈ group_ids float_repr g -> id ∈ processed_ids.

(** The primary of a group occurs in no group emitted before it. *)
Definition primaries_fresh (groups : list duplicate_group) : Prop :=
  forall (i j : nat) gi gj,
    (i < j)%nat -> groups !! i = Some gi -> groups !! j = Some gj ->
    primary_id gj ∉ group_ids float_repr gi.

(** The keyword, case-folded as the search asks, occurs in a non-empty
    field of the document. *)
Definition keyword_in_field (doc : document) (keyword : string)
    (case_sensitive : bool) (field : string) : Prop :=
  exists v, doc !! field = Some v /\ truthy v = true /\
    occurs_in (fold_case case_sensitive keyword)
              (fold_case case_sensitive (py_str float_repr v)).

(** A candidate together with the result built from it. *)
Definition scored_from (keyword : string) (fields : list string)
    (case_sensitive : bool) (doc r : document) : Prop :=
  exists score,
    _calculate_relevance float_repr doc keyword fields case_sensitive = Ok score /\
    Binary64.nonneg score = true /\
    r = <["relevance_score" := VNum score]> doc.

Definition gate (keyword : string) (fields : list string)
    (case_sensitive : bool) (doc : document) : bool :=
  matches float_repr doc (fold_case case_sensitive keyword) fields case_sensitive.

End Vocabulary.

(** * Vocabulary of the further statements: vector search *)

(** The similarity [search_by_vector] reads off a candidate. *)
Definition native_of (doc : document) : value :=
  get doc "$similarity" (VNum 0%float).

(** The candidate's similarity is a number that reaches the threshold. *)
Definition reaches (threshold : float) (doc : document) : bool :=
  match native_of doc with
  | VNum s => PrimFloat.leb threshold s
  | _ => false
  end.

(** The candidate as it is returned, with its score attached. *)
Definition with_score (doc : document) : document :=
  <["similarity_score" := native_of doc]> doc.

(** A result whose score is a number at or above the threshold. *)
Definition scored_above (threshold : float) (r : document) : Prop :=
  exists s, r !! "similarity_score" = Some (VNum s) /\
            (threshold <=? s)%float = true /\ (s <? threshold)%float = false.

(** * Vocabulary of the further statements: duplicate groups *)

(** The arguments of the fetch that opens [find_potential_duplicates]. *)
Definition duplicates_find_args (sample_size : option Z) : find_args :=
  FindArgs None None
    (match sample_size with
     | Some n => if n =? 0 then None else Some n
     | None => None
     end)
    ["_id"; "question"; "$vector"] false.

Section DuplicateVocabulary.

Variable float_repr : float -> string.

(** The identifiers of fetched documents, as the scan reads them. *)
Definition document_ids (documents : list document) : list string :=
  omap (fun d : document => py_str float_repr <$> d !! "_id") documents.

(** A group as the scan builds it from one of the fetched documents. *)
Definition emitted_from (conn : AstraDBConnection) (threshold : float)
    (limit_per_query : Z) (documents : list document) (g : duplicate_group)
  : Prop :=
  exists doc i,
    In doc documents /\ doc !! "_id" = Some i /\
    primary_id g = py_str float_repr i /\
    primary_question g = get doc "question" (VStr "") /\
    find_similar_to_document conn (py_str float_repr i) threshold
      limit_per_query None = Ok (duplicates g) /\
    duplicates g <> [] /\
    count g = Z.of_nat (length (duplicates g)) + 1.

End DuplicateVocabulary.

(** The candidate's similarity, read with the default, is a number. *)
Definition numeric_similarity (doc : document) : Prop :=
  exists s, native_of doc = VNum s.

(** * Vocabulary of the further statements: text-driven search *)

(** The inputs [enhance] hands to the embedder for the answer of a
    candidate. *)
Definition embedded_answer (doc : document) : list value :=
  let answer := get doc "answer" (VStr "") in
  if truthy answer && negb (existsb (eq_str answer) no_answer) then [answer] else [].

(** The inputs [enhance] hands to the embedder for one candidate. *)
Definition embedded_texts (doc : document) : list value :=
  embedded_question doc ++ embedded_answer doc.

(** A result whose overall similarity is its vector-search score, at or
    above the threshold. *)
Definition overall_above (threshold : float) (r : document) : Prop :=
  exists s, r !! "overall_similarity" = Some (VNum s) /\
            r !! "similarity_score" = Some (VNum s) /\
            (threshold <=? s)%float = true.

(** * Vocabulary of the further statements: keyword search *)

(** A result whose relevance score is a number between 0 and 100. *)
Definition relevance_in_range (r : document) : Prop :=
  exists s, r !! "relevance_score" = Some (VNum s) /\
            (0 <=? s)%float = true /\ (s <=? 100)%float = true.

(** * Vocabulary of the further statements: database operations *)

(** A write store that holds one document and accepts every update. *)
Definition canned_writes (doc : document) : WriteCollection :=
  {| wc_find_one := fun _ => Ok (Some doc);
     wc_update_one := fun _ _ _ =>
       Ok (UpdateResult
             (Some (<["n" := VNum 1%float]> (<["ok" := VNum 1%float]> ∅)))) |}.

(** An embedding model that fails on every text. *)
Definition failing_encoder : encoder :=
  fun _ => Raise (EmbedderError "encode failed").

(** A stored pair whose answer is still open. *)
Definition open_pair : document :=
  qa "U" "Who approves access?" "unanswered" [1%float; 0%float].

(** An update that rewrites the question only. *)
Definition new_question : document :=
  {[ "question" := VStr "Who grants access?" ]}.

(** * Properties *)

(** ** Binary64 facts

    Signs and comparisons of the float operations, derived from the
    specification of the primitive floats. *)

Module FloatFacts.
Export Binary64.

Lemma shr_1_nonneg mrs : 0 <= shr_m mrs -> 0 <= shr_m (shr_1 mrs).
Proof.
  destruct mrs as [m r s]; simpl.
  destruct m as [|p|p]; simpl; try lia; destruct p; simpl; lia.
Qed.

Lemma iter_shr_1_nonneg p : forall mrs,
  0 <= shr_m mrs -> 0 <= shr_m (SpecFloat.iter_pos shr_1 p mrs).
Proof.
  induction p; intros mrs H; simpl; auto using shr_1_nonneg.
Qed.

Lemma shr_nonneg mrs e n : 0 <= shr_m mrs -> 0 <= shr_m (fst (shr mrs e n)).
Proof.
  intros H. destruct n; simpl; auto using iter_shr_1_nonneg.
Qed.

Lemma shr_fexp_nonneg prec emax m e l :
  0 <= m -> 0 <= shr_m (fst (shr_fexp prec emax m e l)).
Proof.
  intros H. unfold shr_fexp. apply shr_nonneg.
  destruct l as [|[]]; simpl; exact H.
Qed.

Lemma round_nearest_even_nonneg m l : 0 <= m -> 0 <= round_nearest_even m l.
Proof.
  intros H. destruct l as [|[]]; simpl; try lia.
  destruct (Z.even m); lia.
Qed.

(** Rounding a non-negative mantissa keeps the sign it is given. *)
Lemma binary_round_aux_signed prec emax sx mx ex lx :
  0 <= mx -> sf_signed sx (binary_round_aux prec emax sx mx ex lx).
Proof.
  intros H. unfold binary_round_aux.
  pose proof (shr_fexp_nonneg prec emax mx ex lx H) as H1.
  destruct (shr_fexp prec emax mx ex lx) as [mrs' e']. simpl in H1.
  pose proof (shr_fexp_nonneg prec emax _ e' loc_Exact
                (round_nearest_even_nonneg _ (loc_of_shr_record mrs') H1)) as H2.
  destruct (shr_fexp prec emax _ e' loc_Exact) as [mrs'' e'']. simpl in H2.
  destruct (shr_m mrs'') as [|m|m].
  - left; reflexivity.
  - destruct (e'' <=? emax - prec).
    + right; right; eauto.
    + right; left; reflexivity.
  - lia.
Qed.

Lemma sf_signed_nonneg s : sf_signed false s -> sf_nonneg s = true.
Proof. intros [->|[->|(m & e & ->)]]; reflexivity. Qed.

Lemma binary_round_signed prec emax sx mx ex :
  sf_signed sx (binary_round prec emax sx mx ex).
Proof.
  unfold binary_round. destruct (shl_align _ _ _) as [mz ez].
  apply binary_round_aux_signed. lia.
Qed.

Lemma SFadd_nonneg prec emax x y :
  sf_nonneg x = true -> sf_nonneg y = true ->
  sf_nonneg (SFadd prec emax x y) = true.
Proof.
  destruct x as [sx|[]| |[] mx ex]; destruct y as [sy|[]| |[] my ey];
    simpl; try discriminate; intros _ _; try reflexivity.
  - destruct sx, sy; reflexivity.
  - apply sf_signed_nonneg. unfold binary_normalize.
    destruct (Z.pos (fst (shl_align mx ex (Z.min ex ey)))
              + Z.pos (fst (shl_align my ey (Z.min ex ey)))) eqn:E; try lia.
    apply binary_round_signed.
Qed.

Lemma SFmul_nonneg_finite prec emax x m e :
  sf_nonneg x = true ->
  sf_nonneg (SFmul prec emax x (S754_finite false m e)) = true.
Proof.
  destruct x as [sx|[]| |[] mx ex]; simpl; try discriminate; intros _;
    try reflexivity.
  apply sf_signed_nonneg, binary_round_aux_signed. lia.
Qed.

Lemma SFmul_square prec emax x :
  sf_nonneg (SFmul prec emax x x) || sf_nan (SFmul prec emax x x) = true.
Proof.
  destruct x as [sx|sx| |sx mx ex]; simpl; try reflexivity.
  - destruct sx; reflexivity.
  - rewrite xorb_nilpotent, orb_true_iff. left.
    apply sf_signed_nonneg, binary_round_aux_signed. lia.
Qed.

Lemma SFadd_nonneg_or_nan prec emax x y :
  sf_nonneg x || sf_nan x = true -> sf_nonneg y || sf_nan y = true ->
  sf_nonneg (SFadd prec emax x y) || sf_nan (SFadd prec emax x y) = true.
Proof.
  intros Hx Hy.
  destruct (sf_nan x) eqn:Nx; [destruct x; try discriminate; reflexivity|].
  destruct (sf_nan y) eqn:Ny;
    [destruct y; try discriminate; destruct x as [?|[]| |[] ? ?]; reflexivity|].
  rewrite orb_false_r in Hx, Hy.
  rewrite (SFadd_nonneg prec emax x y Hx Hy). reflexivity.
Qed.

Lemma add_nonneg x y :
  nonneg x = true -> nonneg y = true -> nonneg (x + y)%float = true.
Proof. unfold nonneg. rewrite FloatAxioms.add_spec. apply SFadd_nonneg. Qed.

Lemma of_uint63_nonneg n : nonneg (of_uint63 n) = true.
Proof.
  unfold nonneg. rewrite FloatAxioms.of_uint63_spec.
  pose proof (Uint63.to_Z_bounded n) as H.
  unfold binary_normalize. destruct (Uint63.to_Z n); try lia; try reflexivity.
  apply sf_signed_nonneg, binary_round_signed.
Qed.

Lemma of_Z_nonneg z : 0 <= z -> nonneg (PyFloat.of_Z z) = true.
Proof.
  intros H. unfold PyFloat.of_Z.
  destruct (Z.ltb_spec z 0); [lia|]. apply of_uint63_nonneg.
Qed.

Lemma zero_nonneg : nonneg 0%float = true.
Proof. reflexivity. Qed.

Lemma max0_nonneg x : nonneg (PyFloat.max0 x) = true.
Proof.
  unfold PyFloat.max0. destruct (0 <? x)%float eqn:E; [|reflexivity].
  rewrite FloatAxioms.ltb_spec in E. unfold nonneg. change (Prim2SF 0) with (S754_zero false) in E.
  unfold SFltb in E.
  destruct (Prim2SF x) as [s|[]| |[] m e]; simpl in E; try discriminate; reflexivity.
Qed.

Lemma nonneg_leb_0 x : nonneg x = true -> (0 <=? x)%float = true.
Proof.
  rewrite FloatAxioms.leb_spec. unfold nonneg. change (Prim2SF 0) with (S754_zero false).
  unfold SFleb.
  destruct (Prim2SF x) as [s|[]| |[] m e]; simpl; try discriminate; reflexivity.
Qed.

(** *** Comparisons *)

Ltac cmp_cases :=
  repeat match goal with
  | |- context [Pos.compare_cont Eq ?a ?b] =>
      change (Pos.compare_cont Eq a b) with (Pos.compare a b)
  | H : context [Pos.compare_cont Eq ?a ?b] |- _ =>
      change (Pos.compare_cont Eq a b) with (Pos.compare a b) in H
  end;
  repeat match goal with
  | H : context [Z.compare ?a ?b] |- _ => destruct (Z.compare_spec a b); simpl in H
  | |- context [Z.compare ?a ?b] => destruct (Z.compare_spec a b); simpl
  | H : context [Pos.compare ?a ?b] |- _ => destruct (Pos.compare_spec a b); simpl in H
  | |- context [Pos.compare ?a ?b] => destruct (Pos.compare_spec a b); simpl
  end; subst; try reflexivity; try congruence; try lia.

Lemma SFcompare_antisym x y :
  SFcompare y x = option_map CompOpp (SFcompare x y).
Proof.
  destruct x as [sx|sx| |sx mx ex], y as [sy|sy| |sy my ey]; simpl; try reflexivity;
    try (destruct sx; reflexivity); try (destruct sy; reflexivity);
    try (destruct sx, sy; reflexivity).
  destruct sx, sy; simpl; try reflexivity; f_equal; cmp_cases.
Qed.

Lemma SFcompare_trans x y z c1 c2 :
  SFcompare x y = Some c1 -> SFcompare y z = Some c2 ->
  c1 <> Gt -> c2 <> Gt ->
  SFcompare x z = Some (match c1, c2 with Eq, Eq => Eq | _, _ => Lt end).
Proof.
  destruct x as [sx|sx| |sx mx ex], y as [sy|sy| |sy my ey], z as [sz|sz| |sz mz ez];
    simpl; try discriminate;
    try (destruct sx; simpl); try (destruct sy; simpl); try (destruct sz; simpl);
    intros H1 H2 N1 N2; inversion H1; inversion H2; subst; try congruence;
    clear H1 H2; f_equal; cmp_cases.
Qed.

Lemma SFcompare_nan x y :
  sf_nan x = false -> sf_nan y = false -> exists c, SFcompare x y = Some c.
Proof.
  destruct x, y; simpl; try discriminate; intros _ _; eauto.
Qed.

Lemma comparable_not_nan x : comparable x = true -> sf_nan (Prim2SF x) = false.
Proof.
  unfold comparable. rewrite FloatAxioms.eqb_spec. unfold SFeqb.
  destruct (Prim2SF x); simpl; try reflexivity. discriminate.
Qed.

Lemma nonneg_comparable x : nonneg x = true -> comparable x = true.
Proof.
  unfold nonneg, comparable. rewrite FloatAxioms.eqb_spec. unfold SFeqb.
  destruct (Prim2SF x) as [s|[]| |[] m e]; simpl; try discriminate; try reflexivity.
  intros _. rewrite Z.compare_refl.
  change (Pos.compare_cont Eq m m) with (Pos.compare m m).
  rewrite Pos.compare_refl. reflexivity.
Qed.

Lemma leb_comparable x y :
  (x <=? y)%float = true -> comparable x = true /\ comparable y = true.
Proof.
  unfold comparable. rewrite FloatAxioms.leb_spec, !FloatAxioms.eqb_spec. unfold SFleb, SFeqb.
  intros H.
  destruct (Prim2SF x) as [sx|sx| |sx mx ex], (Prim2SF y) as [sy|sy| |sy my ey];
    simpl in *; try discriminate; try (destruct sx); try (destruct sy);
    rewrite ?Z.compare_refl;
    repeat match goal with
    | |- context [Pos.compare_cont Eq ?a ?a] =>
        change (Pos.compare_cont Eq a a) with (Pos.compare a a);
        rewrite Pos.compare_refl
    end; simpl; auto.
Qed.

Lemma ltb_leb x y : (x <? y)%float = true -> (x <=? y)%float = true.
Proof.
  rewrite FloatAxioms.ltb_spec, FloatAxioms.leb_spec. unfold SFltb, SFleb.
  destruct (SFcompare (Prim2SF x) (Prim2SF y)) as [[]|]; try discriminate; reflexivity.
Qed.

Lemma leb_not_ltb x y : (x <=? y)%float = true -> (y <? x)%float = false.
Proof.
  rewrite FloatAxioms.ltb_spec, FloatAxioms.leb_spec. unfold SFltb, SFleb.
  rewrite (SFcompare_antisym (Prim2SF x) (Prim2SF y)).
  destruct (SFcompare (Prim2SF x) (Prim2SF y)) as [[]|]; try discriminate; reflexivity.
Qed.

Lemma not_ltb_leb x y :
  comparable x = true -> comparable y = true ->
  (x <? y)%float = false -> (y <=? x)%float = true.
Proof.
  intros Hx%comparable_not_nan Hy%comparable_not_nan.
  rewrite FloatAxioms.ltb_spec, FloatAxioms.leb_spec. unfold SFltb, SFleb.
  rewrite (SFcompare_antisym (Prim2SF x) (Prim2SF y)).
  destruct (SFcompare_nan _ _ Hx Hy) as [c ->].
  destruct c; try discriminate; reflexivity.
Qed.

Lemma leb_trans x y z :
  (x <=? y)%float = true -> (y <=? z)%float = true -> (x <=? z)%float = true.
Proof.
  rewrite !FloatAxioms.leb_spec. unfold SFleb. intros H1 H2.
  destruct (SFcompare (Prim2SF x) (Prim2SF y)) as [c1|] eqn:E1; [|discriminate].
  destruct (SFcompare (Prim2SF y) (Prim2SF z)) as [c2|] eqn:E2; [|discriminate].
  rewrite (SFcompare_trans _ _ _ c1 c2 E1 E2);
    destruct c1, c2; try discriminate; reflexivity.
Qed.

(** Two keys equal to the same value are not strictly ordered. *)
Lemma eqb_eqb_not_ltb x y q :
  (x =? q)%float = true -> (y =? q)%float = true -> (x <? y)%float = false.
Proof.
  rewrite !FloatAxioms.eqb_spec, FloatAxioms.ltb_spec. unfold SFeqb, SFltb. intros H1 H2.
  destruct (SFcompare (Prim2SF x) (Prim2SF q)) as [[]|] eqn:E1; try discriminate.
  destruct (SFcompare (Prim2SF y) (Prim2SF q)) as [[]|] eqn:E2; try discriminate.
  assert (E3 : SFcompare (Prim2SF q) (Prim2SF y) = Some Eq)
    by (rewrite (SFcompare_antisym (Prim2SF y) (Prim2SF q)), E2; reflexivity).
  rewrite (SFcompare_trans _ _ _ Eq Eq E1 E3); try discriminate. reflexivity.
Qed.







End FloatFacts.

(** ** Cosine similarity *)

Section Cosine.
Import FloatFacts.

Lemma nonneg_or_nan_not_negative x :
  nonneg_or_nan x = true -> (x <? 0)%float = false.
Proof.
  unfold nonneg_or_nan. rewrite FloatAxioms.ltb_spec.
  change (Prim2SF 0) with (S754_zero false). unfold SFltb.
  destruct (Prim2SF x) as [s|[]| |[] m e]; simpl; try discriminate; reflexivity.
Qed.

Lemma square_nonneg_or_nan x : nonneg_or_nan (x * x)%float = true.
Proof. unfold nonneg_or_nan. rewrite FloatAxioms.mul_spec. apply SFmul_square. Qed.

Lemma add_nonneg_or_nan x y :
  nonneg_or_nan x = true -> nonneg_or_nan y = true ->
  nonneg_or_nan (x + y)%float = true.
Proof.
  unfold nonneg_or_nan. rewrite FloatAxioms.add_spec. apply SFadd_nonneg_or_nan.
Qed.

Lemma sum_squares_from (vec : list float) : forall acc,
  nonneg_or_nan acc = true ->
  nonneg_or_nan
    (fold_left PrimFloat.add (map (fun a : float => (a * a)%float) vec) acc) = true.
Proof.
  induction vec as [|x vec IH]; intros acc Hacc; simpl; [exact Hacc|].
  apply IH, add_nonneg_or_nan; [exact Hacc|apply square_nonneg_or_nan].
Qed.

(** The argument of [math.sqrt] is never negative: the call cannot raise. *)
Lemma math_sqrt_sum_squares (vec : list float) :
  PyFloat.math_sqrt (sum_squares vec) = Ok (magnitude vec).
Proof.
  unfold PyFloat.math_sqrt, magnitude.
  rewrite nonneg_or_nan_not_negative; [reflexivity|].
  apply sum_squares_from. reflexivity.
Qed.

Lemma cosine_unfold (vec1 vec2 : list float) :
  _cosine_similarity vec1 vec2 =
  if PrimFloat.eqb (magnitude vec1) 0%float || PrimFloat.eqb (magnitude vec2) 0%float
  then Ok 0%float
  else PyFloat.truediv (dot_product vec1 vec2)
         (PrimFloat.mul (magnitude vec1) (magnitude vec2)).
Proof.
  unfold _cosine_similarity. rewrite !math_sqrt_sum_squares. reflexivity.
Qed.

Lemma combine_common_prefix {A B : Type} (l1 : list A) : forall l2 : list B,
  combine l1 l2 =
  combine (firstn (Nat.min (length l1) (length l2)) l1)
          (firstn (Nat.min (length l1) (length l2)) l2).
Proof.
  induction l1 as [|x l1 IH]; intros [|y l2]; simpl; try reflexivity.
  f_equal. apply IH.
Qed.

(** A vector whose components are all zero has zero magnitude. *)
Lemma zero_vector_sum_squares (vec : list float) :
  Forall (fun x => PrimFloat.eqb x 0%float = true) vec ->
  Prim2SF (sum_squares vec) = S754_zero false.
Proof.
  unfold sum_squares, PyFloat.sum.
  assert (G : forall acc, Prim2SF acc = S754_zero false ->
    Forall (fun x => PrimFloat.eqb x 0%float = true) vec ->
    Prim2SF (fold_left PrimFloat.add (map (fun a : float => (a * a)%float) vec) acc)
    = S754_zero false).
  { induction vec as [|x vec IH]; intros acc Hacc Hz; simpl; [exact Hacc|].
    inversion Hz as [|? ? Hx Hrest]; subst. apply IH; [|exact Hrest].
    rewrite FloatAxioms.add_spec, FloatAxioms.mul_spec, Hacc.
    rewrite FloatAxioms.eqb_spec in Hx. change (Prim2SF 0) with (S754_zero false) in Hx.
    unfold SFeqb in Hx.
    destruct (Prim2SF x) as [[]|[]| |[] m e]; simpl in Hx; try discriminate; reflexivity. }
  apply G. reflexivity.
Qed.

Lemma zero_vector_magnitude (vec : list float) :
  Forall (fun x => PrimFloat.eqb x 0%float = true) vec ->
  PrimFloat.eqb (magnitude vec) 0%float = true.
Proof.
  intros H. unfold magnitude.
  rewrite FloatAxioms.eqb_spec, FloatAxioms.sqrt_spec, (zero_vector_sum_squares vec H).
  reflexivity.
Qed.

(** C2, as the code has it: vectors of different lengths are accepted.
    The products are taken over the common prefix, the longer vector being
    cut to the length of the shorter one, each magnitude is taken over the
    whole of its vector, and the quotient (or 0.0 for a zero magnitude) is
    returned as the score. *)
Theorem cosine_pairs_common_prefix (vec1 vec2 : list float) :
  let n := Nat.min (length vec1) (length vec2) in
  dot_product vec1 vec2 = dot_product (firstn n vec1) (firstn n vec2) /\
  _cosine_similarity vec1 vec2 =
    if PrimFloat.eqb (magnitude vec1) 0%float || PrimFloat.eqb (magnitude vec2) 0%float
    then Ok 0%float
    else PyFloat.truediv (dot_product (firstn n vec1) (firstn n vec2))
           (PrimFloat.mul (magnitude vec1) (magnitude vec2)).
Proof.
  intros n.
  assert (E : dot_product vec1 vec2 = dot_product (firstn n vec1) (firstn n vec2)).
  { unfold dot_product. rewrite (combine_common_prefix vec1 vec2). reflexivity. }
  split; [exact E|]. rewrite cosine_unfold, E. reflexivity.
Qed.

(** C2 fails on the code: for vectors of lengths 2 and 1 a score comes
    back instead of an error. *)
Lemma cosine_length_mismatch_scores :
  length [1%float; 0%float] <> length [1%float] /\
  _cosine_similarity [1%float; 0%float] [1%float] = Ok 1%float.
Proof. split; [discriminate|vm_compute; reflexivity]. Qed.



End Cosine.

(** ** Vector-driven and document-driven search *)

Section VectorSearch.
Import FloatFacts.

Lemma collection_connected conn coll :
  collection conn = Ok coll -> is_connected conn = true.
Proof.
  unfold collection, is_connected. destruct (_connected conn); [reflexivity|].
  discriminate.
Qed.

Lemma filter_by_threshold_spec (threshold : float) (cands : list document) :
  Forall (fun d : document => exists s, d !! "$similarity" = Some (VNum s)) cands ->
  exists rs,
    filter_by_threshold threshold cands = Ok rs /\
    Forall (kept_from threshold cands) rs /\
    (forall d s, In d cands -> d !! "$similarity" = Some (VNum s) ->
                 (threshold <=? s)%float = true ->
                 In (<["similarity_score" := VNum s]> d) rs).
Proof.
  induction cands as [|d cands IH]; intros Hall.
  - exists []. repeat split; [constructor|intros ? ? []].
  - inversion Hall as [|? ? [s Hs] Hrest]; subst.
    destruct (IH Hrest) as (rs & Hrs & Hkept & Hcomplete).
    simpl. unfold get. rewrite Hs. simpl. rewrite Hrs. simpl.
    assert (Hweak : Forall (kept_from threshold (d :: cands)) rs).
    { eapply Forall_impl; [exact Hkept|].
      intros r (d' & s' & Hin & H1 & H2 & H3 & H4 & H5).
      exists d', s'. repeat split; auto. right; exact Hin. }
    destruct (threshold <=? s)%float eqn:Hle.
    + eexists; split; [reflexivity|]. split.
      * constructor; [|exact Hweak].
        exists d, s. repeat split; auto.
        -- left; reflexivity.
        -- apply lookup_insert_eq.
        -- apply leb_not_ltb, Hle.
      * intros d' s' [<-|Hin] Hs' Hle'.
        -- rewrite Hs in Hs'. injection Hs' as <-. left; reflexivity.
        -- right. eapply Hcomplete; eauto.
    + eexists; split; [reflexivity|]. split; [exact Hweak|].
      intros d' s' [<-|Hin] Hs' Hle'.
      * rewrite Hs in Hs'. injection Hs' as <-. congruence.
      * eapply Hcomplete; eauto.
Qed.

(** C3: whatever candidates the store returns with their native
    similarities, every result of [search_by_vector] is a candidate whose
    native similarity is at least the threshold, carrying that value as
    [similarity_score]; none has a score below the threshold, and every
    candidate reaching the threshold is returned. *)
Theorem search_by_vector_threshold (conn : AstraDBConnection) (coll : Collection)
    (query_vector : value) (threshold : float) (limit : Z)
    (category source exclude_id : option string) (cands : list document) :
  collection conn = Ok coll ->
  coll_find coll (vector_find_args query_vector limit category source exclude_id)
    = Ok cands ->
  Forall (fun d : document => exists s, d !! "$similarity" = Some (VNum s)) cands ->
  exists rs,
    search_by_vector conn query_vector threshold limit category source exclude_id
      = Ok rs /\
    Forall (kept_from threshold cands) rs /\
    (forall d s, In d cands -> d !! "$similarity" = Some (VNum s) ->
                 (threshold <=? s)%float = true ->
                 In (<["similarity_score" := VNum s]> d) rs).
Proof.
  intros Hcoll Hfind Hsim.
  unfold search_by_vector.
  rewrite (collection_connected _ _ Hcoll), Hcoll. simpl. rewrite Hfind. simpl.
  apply filter_by_threshold_spec, Hsim.
Qed.

(** C4: when the store has no document under the identifier, or the
    stored document carries no vector, [find_similar_to_document] raises;
    it does not return a list, empty or otherwise. *)
Theorem find_similar_to_document_missing (conn : AstraDBConnection)
    (coll : Collection) (document_id : string) (threshold : float) (limit : Z)
    (category : option string) (found : option document) :
  collection conn = Ok coll ->
  coll_find_one coll {[ "_id" := CEq (VStr document_id) ]} ["$vector"] = Ok found ->
  (found = None \/ exists d, found = Some d /\ d !! "$vector" = None) ->
  let outcome :=
    find_similar_to_document conn document_id threshold limit category in
  (exists msg, outcome = Raise (ValueError msg)) /\
  (found = None ->
   outcome = Raise (ValueError ("Document " +:+ document_id +:+ " not found"))) /\
  (forall d i, found = Some d -> d !! "_id" = Some i ->
   outcome = Raise (ValueError ("Document " +:+ document_id
                                +:+ " has no vector embedding"))).
Proof.
  intros Hcoll Hone Hmissing outcome. subst outcome.
  unfold find_similar_to_document.
  rewrite (collection_connected _ _ Hcoll), Hcoll. simpl. rewrite Hone. simpl.
  destruct Hmissing as [->|(d & -> & Hvec)].
  - split; [eauto|]. split; [reflexivity|]. intros d i [=].
  - rewrite Hvec. destruct (decide (dom d = ∅)) as [Hdom|Hdom].
    + split; [eauto|]. split; [intros [=]|].
      intros d' i [= <-] Hid. apply dom_empty_inv_L in Hdom. subst d.
      rewrite lookup_empty in Hid. discriminate.
    + split; [eauto|]. split; [intros [=]|]. reflexivity.
Qed.

End VectorSearch.

(** ** Duplicate cluster finder *)

Section Duplicates.

Variable float_repr : float -> string.

Lemma mark_processed_spec (similar : list document) :
  forall processed_ids marked,
    mark_processed float_repr similar processed_ids = Ok marked ->
    processed_ids ⊆ marked /\
    (forall id, id ∈ omap (fun d : document => py_str float_repr <$> d !! "_id") similar ->
                id ∈ marked).
Proof.
  induction similar as [|d similar IH]; intros processed_ids marked H; simpl in H.
  - injection H as <-. split; [reflexivity|]. intros id Hin. inversion Hin.
  - unfold getitem in H. destruct (d !! "_id") as [i|] eqn:Hid; [|discriminate].
    simpl in H. destruct (IH _ _ H) as [Hsub Hall]. split.
    { intros x Hx. apply Hsub, elem_of_union_r, Hx. }
    intros id Hin. simpl in Hin. rewrite Hid in Hin. simpl in Hin.
    apply elem_of_cons in Hin as [->|Hin]; [|auto].
    apply Hsub, elem_of_union_l, elem_of_singleton. reflexivity.
Qed.

Lemma primaries_fresh_snoc (processed_ids : gset string)
    (groups : list duplicate_group) (g : duplicate_group) :
  covered float_repr processed_ids groups -> primaries_fresh float_repr groups ->
  primary_id g ∉ processed_ids ->
  primaries_fresh float_repr (groups ++ [g]).
Proof.
  intros Hcov Hfresh Hnew i j gi gj Hij Hi Hj.
  destruct (decide (j < length groups)%nat) as [Hlt|Hge].
  - rewrite lookup_app_l in Hi by lia. rewrite lookup_app_l in Hj by lia.
    exact (Hfresh i j gi gj Hij Hi Hj).
  - pose proof (lookup_lt_Some _ _ _ Hj) as Hlen. rewrite length_app in Hlen.
    simpl in Hlen. assert (j = length groups) as -> by lia.
    rewrite lookup_app_l in Hi by lia.
    rewrite list_lookup_middle in Hj by reflexivity. injection Hj as <-.
    intros Hin. apply Hnew. eapply Hcov; [|exact Hin].
    eapply list_elem_of_lookup_2, Hi.
Qed.

Lemma scan_documents_fresh (conn : AstraDBConnection) (threshold : float)
    (limit_per_query : Z) (documents : list document) :
  forall processed_ids duplicate_groups groups,
    covered float_repr processed_ids duplicate_groups ->
    primaries_fresh float_repr duplicate_groups ->
    scan_documents float_repr conn threshold limit_per_query documents
      processed_ids duplicate_groups = Ok groups ->
    primaries_fresh float_repr groups.
Proof.
  induction documents as [|doc rest IH];
    intros processed_ids duplicate_groups groups Hcov Hfresh H; simpl in H.
  - injection H as <-. exact Hfresh.
  - unfold getitem in H. destruct (doc !! "_id") as [i|]; [|discriminate].
    simpl in H.
    destruct (decide (py_str float_repr i ∈ processed_ids)) as [Hin|Hnew].
    { eapply IH; eauto. }
    destruct (find_similar_to_document conn (py_str float_repr i) threshold
                limit_per_query None) as [similar|e]; [|discriminate].
    simpl in H. destruct similar as [|d similar]; [eapply IH; eauto|].
    destruct (mark_processed float_repr (d :: similar) ({[py_str float_repr i]} ∪ processed_ids))
      as [marked|e] eqn:Hmark; [|discriminate].
    simpl in H. apply mark_processed_spec in Hmark as [Hsub Hdups].
    eapply IH; [| |exact H].
    + intros g id Hg Hid. apply elem_of_app in Hg as [Hg|Hg].
      * apply Hsub. apply elem_of_union_r. eapply Hcov; eauto.
      * apply list_elem_of_singleton in Hg. subst g.
        unfold group_ids in Hid. simpl in Hid.
        apply elem_of_cons in Hid as [->|Hid];
          [apply Hsub, elem_of_union_l, elem_of_singleton; reflexivity|].
        apply Hdups. exact Hid.
    + eapply primaries_fresh_snoc; eauto.
Qed.

(** C1, as the code has it: in the emitted sequence of groups, the
    primary of each group occurs in no earlier group, neither as that
    group's primary nor in its duplicate list; so no identifier is the
    primary of two groups. *)
Theorem duplicate_primaries_fresh (conn : AstraDBConnection) (threshold : float)
    (limit_per_query : Z) (sample_size : option Z)
    (groups : list duplicate_group) :
  find_potential_duplicates float_repr conn threshold limit_per_query sample_size
    = Ok groups ->
  forall (i j : nat) gi gj,
    (i < j)%nat -> groups !! i = Some gi -> groups !! j = Some gj ->
    (primary_id gj ∉ group_ids float_repr gi) /\ primary_id gi <> primary_id gj.
Proof.
  unfold find_potential_duplicates. intros H.
  destruct (negb (is_connected conn)); [discriminate|].
  destruct (collection conn) as [coll|e]; [|discriminate]. simpl in H.
  destruct (coll_find coll _) as [documents|e]; [|discriminate]. simpl in H.
  apply scan_documents_fresh in H.
  - intros i j gi gj Hij Hi Hj. pose proof (H i j gi gj Hij Hi Hj) as Hnot.
    split; [exact Hnot|]. intros Heq. apply Hnot. rewrite <- Heq.
    apply elem_of_cons. left; reflexivity.
  - intros g id Hg. inversion Hg.
  - intros i j gi gj _ Hi. rewrite lookup_nil in Hi. discriminate.
Qed.

End Duplicates.

(** ** Sorting and slicing *)

Section ListFacts.

Context {A : Type}.

Lemma slice_to_firstn (l : list A) (n : Z) :
  exists k : nat, slice_to l n = firstn k l.
Proof. unfold slice_to. destruct (n <? 0); eauto. Qed.

Lemma In_firstn (k : nat) (x : A) : forall l : list A,
  In x (firstn k l) -> In x l.
Proof.
  induction k as [|k IH]; intros [|y l]; simpl; try tauto.
  intros [->|H]; [left; reflexivity|right; apply IH, H].
Qed.

Lemma In_slice_to (l : list A) (n : Z) (x : A) :
  In x (slice_to l n) -> In x l.
Proof.
  destruct (slice_to_firstn l n) as [k ->]. apply In_firstn.
Qed.

Lemma StronglySorted_firstn (R : A -> A -> Prop) (k : nat) : forall l : list A,
  StronglySorted R l -> StronglySorted R (firstn k l).
Proof.
  induction k as [|k IH]; intros l Hs; [constructor|].
  destruct l as [|x l]; simpl; [constructor|].
  inversion Hs as [|? ? Hs' Hhead]; subst. constructor; [apply IH, Hs'|].
  apply List.Forall_forall. intros y Hy. apply In_firstn in Hy.
  rewrite List.Forall_forall in Hhead. auto.
Qed.

Lemma StronglySorted_lookup (R : A -> A -> Prop) (l : list A) :
  StronglySorted R l ->
  forall (i j : nat) a b,
    (i < j)%nat -> l !! i = Some a -> l !! j = Some b -> R a b.
Proof.
  induction 1 as [|x l Hs IH Hhead]; intros i j a b Hij Hi Hj.
  - rewrite lookup_nil in Hi. discriminate.
  - destruct j as [|j]; [lia|]. simpl in Hj. destruct i as [|i].
    + simpl in Hi. injection Hi as <-. rewrite List.Forall_forall in Hhead.
      apply Hhead. apply list_elem_of_In. eapply list_elem_of_lookup_2, Hj.
    + simpl in Hi. eapply IH; [|exact Hi|exact Hj]. lia.
Qed.

Lemma filter_slice_to_prefix (f : A -> bool) (l : list A) (n : Z) :
  List.filter f (slice_to l n) `prefix_of` List.filter f l.
Proof.
  destruct (slice_to_firstn l n) as [k ->].
  exists (List.filter f (skipn k l)).
  rewrite <- List.filter_app, firstn_skipn. reflexivity.
Qed.

End ListFacts.

Section SortFacts.
Import FloatFacts.

Context {A : Type} (key : A -> float).

Lemma In_insert_desc (x y : A) (l : list A) :
  In y (insert_desc key x l) <-> y = x \/ In y l.
Proof.
  induction l as [|z l IH]; simpl.
  - intuition.
  - destruct (key x <? key z)%float; simpl; rewrite ?IH; intuition.
Qed.

Lemma In_sort_desc (l : list A) (y : A) :
  In y (sort_desc key l) <-> In y l.
Proof.
  induction l as [|x l IH]; simpl; [reflexivity|].
  rewrite In_insert_desc, IH. intuition.
Qed.

Lemma Forall_insert_desc (P : A -> Prop) (x : A) (l : list A) :
  P x -> Forall P l -> Forall P (insert_desc key x l).
Proof.
  intros Hx Hl. apply List.Forall_forall. intros y Hy.
  apply In_insert_desc in Hy as [->|Hy]; [exact Hx|].
  rewrite List.Forall_forall in Hl. auto.
Qed.

Lemma insert_desc_sorted (x : A) (l : list A) :
  comparable (key x) = true ->
  Forall (fun y => comparable (key y) = true) l ->
  StronglySorted (desc key) l ->
  StronglySorted (desc key) (insert_desc key x l).
Proof.
  intros Hx Hall Hsorted.
  induction l as [|y l IH]; simpl.
  - constructor; constructor.
  - inversion Hall as [|? ? Hy Hall']; subst.
    inversion Hsorted as [|? ? Hsorted' Hhead]; subst.
    destruct (key x <? key y)%float eqn:Hlt.
    + constructor; [apply IH; assumption|].
      apply Forall_insert_desc; [|exact Hhead].
      unfold desc. apply ltb_leb, Hlt.
    + assert (Hyx : desc key x y) by (unfold desc; apply not_ltb_leb; assumption).
      constructor; [exact Hsorted|]. constructor; [exact Hyx|].
      eapply Forall_impl; [exact Hhead|]. intros z Hz. unfold desc in *.
      eapply leb_trans; eassumption.
Qed.

Lemma sort_desc_sorted (l : list A) :
  Forall (fun y => comparable (key y) = true) l ->
  StronglySorted (desc key) (sort_desc key l).
Proof.
  induction l as [|x l IH]; intros Hall; simpl; [constructor|].
  inversion Hall as [|? ? Hx Hall']; subst.
  apply insert_desc_sorted; [exact Hx| |apply IH, Hall'].
  apply List.Forall_forall. intros y Hy.
  apply (proj1 (In_sort_desc _ _)) in Hy.
  rewrite List.Forall_forall in Hall'. auto.
Qed.

(** Stability: the elements bearing a given key keep their order. *)
Lemma filter_insert_desc (q : float) (x : A) (l : list A) :
  List.filter (fun z => PrimFloat.eqb (key z) q) (insert_desc key x l) =
  if PrimFloat.eqb (key x) q
  then x :: List.filter (fun z => PrimFloat.eqb (key z) q) l
  else List.filter (fun z => PrimFloat.eqb (key z) q) l.
Proof.
  induction l as [|y l IH]; simpl; [reflexivity|].
  destruct (key x <? key y)%float eqn:Hlt; simpl.
  - rewrite IH.
    destruct (key x =? q)%float eqn:Hx, (key y =? q)%float eqn:Hy; try reflexivity.
    rewrite (eqb_eqb_not_ltb _ _ _ Hx Hy) in Hlt. discriminate.
  - reflexivity.
Qed.

Lemma filter_sort_desc (q : float) (l : list A) :
  List.filter (fun z => PrimFloat.eqb (key z) q) (sort_desc key l) =
  List.filter (fun z => PrimFloat.eqb (key z) q) l.
Proof.
  induction l as [|x l IH]; simpl; [reflexivity|].
  rewrite filter_insert_desc, IH. reflexivity.
Qed.

End SortFacts.

(** ** Text-driven search *)

Section TextSearch.

Lemma no_answer_skipped (s : string) :
  In s no_answer ->
  truthy (VStr s) && negb (existsb (eq_str (VStr s)) no_answer) = false.
Proof.
  intros [<-|[<-|[<-|[]]]]; reflexivity.
Qed.

Lemma enhance_answer_kept (model : encoder) (q : list float) (doc r : document) :
  fst (enhance model q doc) = Ok r -> r !! "answer" = doc !! "answer".
Proof.
  unfold enhance, mbind, traced_bind, mret, traced_ret, lift, encode.
  intros H.
  repeat match type of H with
  | context [if ?b then _ else _] => destruct b; simpl in H
  | context [match ?r with Ok _ => _ | Raise _ => _ end] =>
      destruct r; simpl in H
  end; try discriminate;
  injection H as <-; rewrite !lookup_insert_ne by discriminate; reflexivity.
Qed.

Lemma enhance_missing_answer (model : encoder) (q : list float)
    (doc : document) (s : string) :
  doc !! "answer" = Some (VStr s) -> In s no_answer ->
  snd (enhance model q doc) = embedded_question doc /\
  (forall d, fst (enhance model q doc) = Ok d ->
             d !! "answer_similarity" = Some (VNum 0%float)).
Proof.
  intros Hans Hs.
  assert (Hget : get doc "answer" (VStr "") = VStr s)
    by (unfold get; rewrite Hans; reflexivity).
  unfold enhance, embedded_question, mbind, traced_bind, mret, traced_ret, lift, encode.
  cbv zeta. rewrite Hget, (no_answer_skipped s Hs).
  destruct (truthy (get doc "question" (VStr ""))
            && negb (eq_str (get doc "question" (VStr "")) "N/A")); simpl.
  - destruct (model (get doc "question" (VStr ""))) as [emb|e]; simpl.
    + destruct (_cosine_similarity q emb) as [c|e]; simpl.
      * split; [reflexivity|]. intros d [= <-].
        rewrite lookup_insert_ne by discriminate. apply lookup_insert_eq.
      * split; [reflexivity|]. intros d [=].
    + split; [reflexivity|]. intros d [=].
  - split; [reflexivity|]. intros d [= <-].
    rewrite lookup_insert_ne by discriminate. apply lookup_insert_eq.
Qed.

Lemma enhance_all_from (model : encoder) (q : list float)
    (results : list document) :
  forall enhanced,
    fst (enhance_all model q results) = Ok enhanced ->
    forall r, In r enhanced ->
    exists d, In d results /\ fst (enhance model q d) = Ok r.
Proof.
  induction results as [|doc rest IH]; intros enhanced H r Hr; simpl in H.
  - injection H as <-. destruct Hr.
  - unfold mbind, traced_bind, mret, traced_ret in H. simpl in H.
    destruct (fst (enhance model q doc)) as [d|e] eqn:Hd; simpl in H; [|discriminate].
    destruct (fst (enhance_all model q rest)) as [ds|e] eqn:Hds; simpl in H;
      [|discriminate].
    injection H as <-. destruct Hr as [<-|Hr].
    + exists doc. split; [left; reflexivity|exact Hd].
    + destruct (IH ds eq_refl r Hr) as (d' & Hin & Hd').
      exists d'. split; [right; exact Hin|exact Hd'].
Qed.

(** C9: for a candidate whose answer is "", "unanswered" or "N/A", the
    loop body of [search_by_text] calls the embedder for the question
    only, never for the answer, and sets [answer_similarity] to 0.0;
    every such result of [search_by_text] carries [answer_similarity]
    0.0. *)
Theorem search_by_text_skips_missing_answer (ss : SimilaritySearch)
    (query_text : string) (threshold : float) (limit : Z)
    (category source : option string)
    (model : encoder) (query_embedding : list float)
    (doc : document) (s : string) :
  doc !! "answer" = Some (VStr s) -> In s no_answer ->
  snd (enhance model query_embedding doc) = embedded_question doc /\
  (forall d, fst (enhance model query_embedding doc) = Ok d ->
             d !! "answer_similarity" = Some (VNum 0%float)) /\
  (forall rs r,
     fst (search_by_text ss query_text threshold limit category source) = Ok rs ->
     In r rs -> r !! "answer" = Some (VStr s) ->
     r !! "answer_similarity" = Some (VNum 0%float)).
Proof.
  intros Hans Hs.
  destruct (enhance_missing_answer model query_embedding doc s Hans Hs) as [Hlog Hsim].
  split; [exact Hlog|]. split; [exact Hsim|].
  intros rs r Hrun Hr Hanswer.
  unfold search_by_text in Hrun.
  destruct (negb (is_connected (connection ss))); [discriminate|].
  unfold mbind, traced_bind, mret, traced_ret, lift, encode in Hrun. simpl in Hrun.
  destruct (embedding_model ss) as [m|e]; simpl in Hrun; [|discriminate].
  destruct (m (VStr query_text)) as [qe|e]; simpl in Hrun; [|discriminate].
  destruct (search_by_vector _ _ _ _ _ _ _) as [results|e]; simpl in Hrun;
    [|discriminate].
  destruct (fst (enhance_all m qe results)) as [enhanced|e] eqn:Hall;
    simpl in Hrun; [|discriminate].
  injection Hrun as <-.
  apply In_slice_to in Hr.
  apply (proj1 (In_sort_desc (score_of "overall_similarity") enhanced r)) in Hr.
  destruct (enhance_all_from m qe results enhanced Hall r Hr) as (d & _ & Hd).
  pose proof (enhance_answer_kept m qe d r Hd) as Hkept.
  rewrite Hanswer in Hkept. symmetry in Hkept.
  exact (proj2 (enhance_missing_answer m qe d s Hkept Hs) r Hd).
Qed.

End TextSearch.

(** ** Relevance scorer *)

Section Relevance.
Import FloatFacts.

Variable float_repr : float -> string.

(** Python never prints a float as the empty string. *)
Hypothesis float_repr_nonempty : forall x, float_repr x <> "".

Lemma py_str_truthy (v : value) :
  truthy v = true -> PyStr.len (py_str float_repr v) <> 0.
Proof using float_repr_nonempty.
  unfold PyStr.len. destruct v as [|s|x|xs]; simpl; intros H.
  - discriminate.
  - destruct s; [discriminate|]. simpl. lia.
  - specialize (float_repr_nonempty x).
    destruct (float_repr x); [congruence|]. simpl. lia.
  - lia.
Qed.

Lemma field_weights_positive (field : string) :
  exists m e, Prim2SF (field_weights field) = S754_finite false m e.
Proof using Type.
  unfold field_weights.
  repeat match goal with
  | |- context [String.eqb ?a ?b] => destruct (String.eqb a b)
  end; vm_compute; eauto.
Qed.

Lemma mul_weight_nonneg (x : float) (field : string) :
  nonneg x = true -> nonneg (x * field_weights field)%float = true.
Proof using Type.
  intros H. destruct (field_weights_positive field) as (m & e & Hw).
  unfold nonneg. rewrite FloatAxioms.mul_spec, Hw.
  apply SFmul_nonneg_finite, H.
Qed.

(** A field either contributes nothing or a non-negative score. *)
Lemma field_score_nonneg (doc : document) (keyword_lower : string)
    (case_sensitive : bool) (field : string) :
  exists c,
    field_score float_repr doc keyword_lower case_sensitive field = Ok c /\
    forall x, c = Some x -> nonneg x = true.
Proof using float_repr_nonempty.
  unfold field_score.
  destruct (doc !! field) as [v|]; [|exists None; split; [reflexivity|discriminate]].
  destruct (truthy v) eqn:Hv; simpl;
    [|exists None; split; [reflexivity|discriminate]].
  destruct (0 <? PyStr.count _ _) eqn:Hocc;
    [|exists None; split; [reflexivity|discriminate]].
  apply Z.ltb_lt in Hocc.
  unfold int_truediv.
  destruct (Z.eqb_spec (PyStr.len (py_str float_repr v)) 0) as [Hlen|Hlen];
    [exfalso; exact (py_str_truthy v Hv Hlen)|].
  simpl. eexists. split; [reflexivity|]. intros x [= <-].
  apply mul_weight_nonneg.
  repeat apply add_nonneg.
  - apply of_Z_nonneg. lia.
  - apply max0_nonneg.
  - apply of_Z_nonneg. destruct (PyStr.mem _ _); lia.
Qed.

Lemma score_fields_nonneg (doc : document) (keyword_lower : string)
    (case_sensitive : bool) (fields : list string) :
  forall score, nonneg score = true ->
  exists total,
    score_fields float_repr doc keyword_lower case_sensitive score fields = Ok total /\
    nonneg total = true.
Proof using float_repr_nonempty.
  induction fields as [|field rest IH]; intros score Hscore; simpl.
  - exists score. split; [reflexivity|exact Hscore].
  - destruct (field_score_nonneg doc keyword_lower case_sensitive field)
      as (c & -> & Hc). simpl.
    apply IH. destruct c as [x|]; [|exact Hscore].
    apply add_nonneg; [exact Hscore|apply Hc; reflexivity].
Qed.

Lemma min_100_bounds (score : float) :
  nonneg score = true ->
  nonneg (PyFloat.min score 100%float) = true /\
  (PyFloat.min score 100%float <=? 100)%float = true.
Proof using Type.
  intros H. unfold PyFloat.min.
  destruct (100 <? score)%float eqn:Hlt.
  - split; reflexivity.
  - split; [exact H|].
    apply not_ltb_leb; [reflexivity|apply nonneg_comparable, H|exact Hlt].
Qed.

Lemma calculate_relevance_nonneg (doc : document) (keyword : string)
    (fields : list string) (case_sensitive : bool) :
  exists score,
    _calculate_relevance float_repr doc keyword fields case_sensitive = Ok score /\
    nonneg score = true /\ (score <=? 100)%float = true.
Proof using float_repr_nonempty.
  unfold _calculate_relevance.
  destruct (score_fields_nonneg doc (fold_case case_sensitive keyword)
              case_sensitive fields 0%float zero_nonneg) as (total & -> & Htotal).
  simpl. eexists. split; [reflexivity|]. apply min_100_bounds, Htotal.
Qed.

(** C5: the relevance scorer returns a value between 0 and 100; every
    field's weighted contribution is non-negative and the total is
    capped at 100. *)
Theorem calculate_relevance_bounds (doc : document) (keyword : string)
    (fields : list string) (case_sensitive : bool) :
  exists score,
    _calculate_relevance float_repr doc keyword fields case_sensitive = Ok score /\
    (0 <=? score)%float = true /\ (score <=? 100)%float = true /\
    (forall field x,
       field_score float_repr doc (fold_case case_sensitive keyword)
                   case_sensitive field = Ok (Some x) ->
       (0 <=? x)%float = true).
Proof using float_repr_nonempty.
  destruct (calculate_relevance_nonneg doc keyword fields case_sensitive)
    as (score & Hrun & Hnn & Hcap).
  exists score. split; [exact Hrun|]. split; [apply nonneg_leb_0, Hnn|].
  split; [exact Hcap|]. intros field x Hx.
  destruct (field_score_nonneg doc (fold_case case_sensitive keyword)
              case_sensitive field) as (c & Hc & Hpos).
  rewrite Hx in Hc. injection Hc as <-. apply nonneg_leb_0, Hpos. reflexivity.
Qed.

End Relevance.

(** ** Keyword search *)

Section StringFacts.

Lemma append_cons (c : ascii) (a b : string) :
  String c a +:+ b = String c (a +:+ b).
Proof. reflexivity. Qed.

Lemma prefix_append (a : string) : forall s,
  String.prefix a s = true <-> exists post, s = a +:+ post.
Proof.
  induction a as [|c a IH]; intros s.
  - split; [intros _; exists s; reflexivity|]. intros _. destruct s; reflexivity.
  - destruct s as [|c' s]; simpl.
    + split; [discriminate|]. intros [post H]. rewrite append_cons in H. discriminate.
    + destruct (ascii_dec c c') as [->|Hne].
      * rewrite IH. split; intros [post H]; exists post.
        -- rewrite append_cons, H. reflexivity.
        -- rewrite append_cons in H. injection H as ->. reflexivity.
      * split; [discriminate|]. intros [post H]. rewrite append_cons in H.
        injection H as -> _. contradiction.
Qed.

(** [PyStr.contains] decides the occurrence of a substring. *)
Lemma contains_occurs (sub : string) : forall s,
  PyStr.contains sub s = true <-> occurs_in sub s.
Proof.
  unfold occurs_in. induction s as [|c s IH].
  - change (PyStr.contains sub "") with (String.prefix sub "" || false).
    rewrite orb_false_r, prefix_append. split.
    + intros [post H]. exists "", post. exact H.
    + intros (pre & post & H). destruct pre as [|c pre].
      * exists post. exact H.
      * rewrite append_cons in H. discriminate.
  - change (PyStr.contains sub (String c s))
      with (String.prefix sub (String c s) || PyStr.contains sub s).
    rewrite orb_true_iff, prefix_append, IH. split.
    + intros [[post H]|(pre & post & H)].
      * exists "", post. exact H.
      * exists (String c pre), post. rewrite append_cons, H. reflexivity.
    + intros (pre & post & H). destruct pre as [|c' pre].
      * left. exists post. exact H.
      * right. rewrite append_cons in H. injection H as -> ->.
        exists pre, post. reflexivity.
Qed.

End StringFacts.

Section KeywordSearch.
Import FloatFacts.

Variable float_repr : float -> string.
Hypothesis float_repr_nonempty : forall x, float_repr x <> "".

Lemma gate_keyword_in_field (doc : document) (keyword : string)
    (fields : list string) (case_sensitive : bool) :
  gate float_repr keyword fields case_sensitive doc = true <->
  exists field, In field fields /\ keyword_in_field float_repr doc keyword case_sensitive field.
Proof using Type.
  unfold gate, matches, keyword_in_field. rewrite existsb_exists.
  split; intros (field & Hin & H); exists field; (split; [exact Hin|]).
  - destruct (doc !! field) as [v|]; [|discriminate].
    apply andb_true_iff in H as [Hv Hc]. exists v.
    split; [reflexivity|]. split; [exact Hv|]. apply contains_occurs, Hc.
  - destruct H as (v & -> & Hv & Hocc). rewrite Hv. simpl.
    apply contains_occurs, Hocc.
Qed.

Lemma matching_docs_spec (keyword : string) (fields : list string)
    (case_sensitive : bool) (all_docs : list document) :
  exists found,
    matching_docs float_repr keyword fields case_sensitive all_docs = Ok found /\
    Forall2 (scored_from float_repr keyword fields case_sensitive)
            (List.filter (gate float_repr keyword fields case_sensitive) all_docs) found.
Proof using float_repr_nonempty.
  induction all_docs as [|doc rest (found & Hfound & Hall)]; simpl.
  - exists []. split; [reflexivity|constructor].
  - fold (gate float_repr keyword fields case_sensitive doc).
    destruct (gate float_repr keyword fields case_sensitive doc).
    + destruct (calculate_relevance_nonneg float_repr float_repr_nonempty
                  doc keyword fields case_sensitive) as (score & Hscore & Hnn & _).
      rewrite Hscore. simpl. rewrite Hfound. simpl.
      eexists. split; [reflexivity|]. constructor; [|exact Hall].
      exists score. auto.
    + exists found. split; [exact Hfound|exact Hall].
Qed.

Lemma Forall2_In_r {X Y : Type} (P : X -> Y -> Prop) (l : list X) (l' : list Y) :
  Forall2 P l l' -> forall y, In y l' -> exists x, In x l /\ P x y.
Proof using Type.
  induction 1 as [|x y l l' Hxy _ IH]; intros z Hz; [destruct Hz|].
  destruct Hz as [<-|Hz].
  - exists x. split; [left; reflexivity|exact Hxy].
  - destruct (IH z Hz) as (x' & Hin & Hp). exists x'. split; [right; exact Hin|exact Hp].
Qed.

Lemma search_unfold (conn : AstraDBConnection) (coll : Collection)
    (keyword : string) (fields : option (list string))
    (category source : option string) (limit : Z) (case_sensitive : bool)
    (all_docs : list document) :
  collection conn = Ok coll ->
  coll_find coll (keyword_find_args category source limit) = Ok all_docs ->
  exists found,
    Forall2 (scored_from float_repr keyword (fields_or_default fields) case_sensitive)
      (List.filter (gate float_repr keyword (fields_or_default fields) case_sensitive) all_docs)
      found /\
    search float_repr conn keyword fields category source limit case_sensitive
    = Ok (slice_to (sort_desc (score_of "relevance_score") found) limit).
Proof using float_repr_nonempty.
  intros Hcoll Hfind. unfold search.
  rewrite (collection_connected _ _ Hcoll), Hcoll. simpl. rewrite Hfind. simpl.
  destruct (matching_docs_spec keyword (fields_or_default fields) case_sensitive
              all_docs) as (found & -> & Hall).
  simpl. exists found. split; [exact Hall|reflexivity].
Qed.

(** C6: every document that [search] returns is a fetched candidate in
    which the keyword, case-folded unless the search is case sensitive,
    occurs in some requested field, scored by the relevance scorer; a
    candidate without such an occurrence is not among the results. *)
Theorem search_returns_only_matches (conn : AstraDBConnection) (coll : Collection)
    (keyword : string) (fields : option (list string))
    (category source : option string) (limit : Z) (case_sensitive : bool)
    (all_docs : list document) :
  collection conn = Ok coll ->
  coll_find coll (keyword_find_args category source limit) = Ok all_docs ->
  Forall (fun d : document => d !! "relevance_score" = None) all_docs ->
  exists rs,
    search float_repr conn keyword fields category source limit case_sensitive
      = Ok rs /\
    (forall r, In r rs ->
       exists d field,
         In d all_docs /\ In field (fields_or_default fields) /\
         keyword_in_field float_repr d keyword case_sensitive field /\
         scored_from float_repr keyword (fields_or_default fields) case_sensitive d r) /\
    (forall d score,
       In d all_docs ->
       (forall field, In field (fields_or_default fields) ->
                      ~ keyword_in_field float_repr d keyword case_sensitive field) ->
       ~ In (<["relevance_score" := VNum score]> d) rs).
Proof using float_repr_nonempty.
  intros Hcoll Hfind Hfresh.
  destruct (search_unfold conn coll keyword fields category source limit
              case_sensitive all_docs Hcoll Hfind) as (found & Hall & ->).
  eexists. split; [reflexivity|].
  assert (Hfrom : forall r,
    In r (slice_to (sort_desc (score_of "relevance_score") found) limit) ->
    exists d, In d all_docs /\
      gate float_repr keyword (fields_or_default fields) case_sensitive d = true /\
      scored_from float_repr keyword (fields_or_default fields) case_sensitive d r).
  { intros r Hr. apply In_slice_to in Hr.
    apply (proj1 (In_sort_desc (score_of "relevance_score") found r)) in Hr.
    destruct (Forall2_In_r _ _ _ Hall r Hr) as (d & Hd & Hscored).
    apply filter_In in Hd as [Hd Hgate]. eauto. }
  split.
  - intros r Hr. destruct (Hfrom r Hr) as (d & Hd & Hgate & Hscored).
    apply gate_keyword_in_field in Hgate as (field & Hfield & Hkw).
    exists d, field. auto.
  - intros d score Hd Hnone Hr.
    destruct (Hfrom _ Hr) as (d' & Hd' & Hgate & (score' & _ & _ & Heq)).
    assert (d' = d) as ->.
    { rewrite List.Forall_forall in Hfresh.
      rewrite <- (delete_insert_id d' "relevance_score" (VNum score'))
        by (apply Hfresh, Hd').
      rewrite <- (delete_insert_id d "relevance_score" (VNum score))
        by (apply Hfresh, Hd).
      rewrite Heq. reflexivity. }
    apply gate_keyword_in_field in Hgate as (field & Hfield & Hkw).
    exact (Hnone field Hfield Hkw).
Qed.

(** C7: the results of [search] are in non-increasing order of
    [relevance_score], and the results bearing any one score are, in
    order, an initial run of the matching candidates bearing that score,
    in the order the store returned them. *)
Theorem search_sorted_stable (conn : AstraDBConnection) (coll : Collection)
    (keyword : string) (fields : option (list string))
    (category source : option string) (limit : Z) (case_sensitive : bool)
    (all_docs : list document) :
  collection conn = Ok coll ->
  coll_find coll (keyword_find_args category source limit) = Ok all_docs ->
  exists rs found,
    search float_repr conn keyword fields category source limit case_sensitive
      = Ok rs /\
    Forall2 (scored_from float_repr keyword (fields_or_default fields) case_sensitive)
      (List.filter (gate float_repr keyword (fields_or_default fields) case_sensitive) all_docs)
      found /\
    (forall (i j : nat) a b,
       (i < j)%nat -> rs !! i = Some a -> rs !! j = Some b ->
       (score_of "relevance_score" b <=? score_of "relevance_score" a)%float = true) /\
    (forall q : float,
       List.filter (fun r => PrimFloat.eqb (score_of "relevance_score" r) q) rs
       `prefix_of`
       List.filter (fun r => PrimFloat.eqb (score_of "relevance_score" r) q) found).
Proof using float_repr_nonempty.
  intros Hcoll Hfind.
  destruct (search_unfold conn coll keyword fields category source limit
              case_sensitive all_docs Hcoll Hfind) as (found & Hall & ->).
  exists (slice_to (sort_desc (score_of "relevance_score") found) limit), found.
  split; [reflexivity|]. split; [exact Hall|]. split.
  - assert (Hkeys : Forall (fun r => comparable (score_of "relevance_score" r) = true)
                           found).
    { apply List.Forall_forall. intros r Hr.
      destruct (Forall2_In_r _ _ _ Hall r Hr) as (d & _ & score & _ & Hnn & ->).
      unfold score_of. rewrite lookup_insert_eq. apply nonneg_comparable, Hnn. }
    destruct (slice_to_firstn (sort_desc (score_of "relevance_score") found) limit)
      as [k ->].
    apply (StronglySorted_lookup (desc (score_of "relevance_score"))).
    apply StronglySorted_firstn, sort_desc_sorted, Hkeys.
  - intros q.
    rewrite <- (filter_sort_desc (score_of "relevance_score") q found).
    apply filter_slice_to_prefix.
Qed.

End KeywordSearch.

(** ** Counting *)

(** C10: [count_documents] always returns an integer: the count the
    store reports for the filter under the upper bound 1000, which is
    not negative, or -1 whenever the connection or the store raises, as
    the reference store does once more than 1000 documents match. *)
Theorem count_documents_total (conn : AstraDBConnection)
    (filter_arg : option filter_dict) :
  let asked := default (∅ : filter_dict) filter_arg in
  (count_documents conn filter_arg = -1 \/ 0 <= count_documents conn filter_arg) /\
  (forall coll n,
     collection conn = Ok coll -> coll_count_documents coll asked 1000 = Ok n ->
     count_documents conn filter_arg = Z.of_nat n) /\
  (forall coll e,
     collection conn = Ok coll -> coll_count_documents coll asked 1000 = Raise e ->
     count_documents conn filter_arg = -1) /\
  (forall e, collection conn = Raise e -> count_documents conn filter_arg = -1) /\
  (forall docs,
     (1000 < length (List.filter (MemStore.satisfies asked) docs))%nat ->
     count_documents (MemStore.connect docs) filter_arg = -1).
Proof.
  intros asked. unfold count_documents. fold asked. repeat split.
  - destruct (collection conn) as [coll|e]; simpl; [|left; reflexivity].
    destruct (coll_count_documents coll asked 1000); simpl; [right; lia|left; reflexivity].
  - intros coll n -> Hn. simpl. rewrite Hn. reflexivity.
  - intros coll e -> He. simpl. rewrite He. reflexivity.
  - intros e ->. reflexivity.
  - intros docs Hmany. simpl. unfold MemStore.count_documents.
    destruct (Z.ltb_spec 1000
                (Z.of_nat (length (List.filter (MemStore.satisfies asked) docs))));
      [reflexivity|lia].
Qed.

(** * The statements on concrete runs *)

(** C1 fails on the code: on the chain corpus with the default
    threshold 0.90 the identifier "B" is emitted in two groups, once as a
    duplicate of "A" and once as a duplicate of "C". *)
Lemma duplicate_groups_overlap :
  exists groups,
    find_potential_duplicates plain_repr (MemStore.connect chain_corpus)
      ninety 5 None = Ok groups /\
    map (group_ids plain_repr) groups = [["A"; "B"]; ["C"; "B"]] /\
    ~ NoDup (concat (map (group_ids plain_repr) groups)).
Proof.
  eexists. split; [vm_compute; reflexivity|].
  assert (E : forall l, l = [["A"; "B"]; ["C"; "B"]] -> ~ NoDup (concat l)).
  { intros l -> H. simpl in H. apply NoDup_cons_1_2, NoDup_cons_1_1 in H.
    apply H. right. left. }
  split; [vm_compute; reflexivity|]. apply E. vm_compute. reflexivity.
Qed.

Lemma duplicate_primaries_fresh_witness :
  exists groups gi gj,
    find_potential_duplicates plain_repr (MemStore.connect chain_corpus)
      ninety 5 None = Ok groups /\
    groups !! 0%nat = Some gi /\ groups !! 1%nat = Some gj /\
    (primary_id gj ∉ group_ids plain_repr gi) /\ primary_id gi <> primary_id gj.
Proof.
  eexists _, _, _.
  split; [vm_compute; reflexivity|].
  split; [reflexivity|]. split; [reflexivity|].
  apply (duplicate_primaries_fresh plain_repr (MemStore.connect chain_corpus)
           ninety 5 None _ ltac:(vm_compute; reflexivity) 0%nat 1%nat);
    [lia|reflexivity|reflexivity].
Defined.


Lemma search_by_vector_threshold_witness :
  exists rs,
    search_by_vector (canned_connection ranked_candidates)
      (VVec [1%float; 0%float]) 0.9375%float 3 None None None = Ok rs /\
    Forall (kept_from 0.9375%float ranked_candidates) rs /\
    (forall d s, In d ranked_candidates -> d !! "$similarity" = Some (VNum s) ->
                 (0.9375 <=? s)%float = true ->
                 In (<["similarity_score" := VNum s]> d) rs).
Proof.
  apply (search_by_vector_threshold (canned_connection ranked_candidates)
           (canned_collection ranked_candidates));
    [reflexivity|reflexivity|].
  repeat constructor; eexists; vm_compute; reflexivity.
Defined.

Lemma find_similar_to_document_missing_witness :
  find_similar_to_document (canned_connection unembedded_corpus) "N"
    ninety 5 None
  = Raise (ValueError "Document N has no vector embedding").
Proof.
  refine (proj2 (proj2
    (find_similar_to_document_missing (canned_connection unembedded_corpus)
       (canned_collection unembedded_corpus) "N" ninety 5 None
       (head unembedded_corpus) _ _ _)) _ (VStr "N") eq_refl _).
  - reflexivity.
  - reflexivity.
  - right. eexists. split; [reflexivity|]. vm_compute. reflexivity.
  - vm_compute. reflexivity.
Defined.

Lemma search_by_text_skips_missing_answer_witness :
  snd (enhance constant_encoder [1%float; 0%float] unanswered_candidate)
  = embedded_question unanswered_candidate /\
  (forall d,
     fst (enhance constant_encoder [1%float; 0%float] unanswered_candidate) = Ok d ->
     d !! "answer_similarity" = Some (VNum 0%float)).
Proof.
  destruct (search_by_text_skips_missing_answer sample_search "access"
              ninety 5 None None constant_encoder [1%float; 0%float]
              unanswered_candidate "unanswered")
    as (Hlog & Hsim & _);
    [vm_compute; reflexivity|right; left; reflexivity|].
  split; [exact Hlog|exact Hsim].
Defined.

Lemma calculate_relevance_bounds_witness :
  exists score,
    _calculate_relevance plain_repr unanswered_candidate "Access"
      ["question"; "answer"] false = Ok score /\
    (0 <=? score)%float = true /\ (score <=? 100)%float = true /\
    (forall field x,
       field_score plain_repr unanswered_candidate (fold_case false "Access")
                   false field = Ok (Some x) ->
       (0 <=? x)%float = true).
Proof.
  apply (calculate_relevance_bounds plain_repr); intros x; discriminate.
Defined.

Lemma search_returns_only_matches_witness :
  exists rs,
    search plain_repr (canned_connection chain_corpus) "settings" None None None
      2 false = Ok rs /\
    (forall r, In r rs ->
       exists d field,
         In d chain_corpus /\ In field (fields_or_default None) /\
         keyword_in_field plain_repr d "settings" false field /\
         scored_from plain_repr "settings" (fields_or_default None) false d r) /\
    (forall d score,
       In d chain_corpus -> d !! "_id" <> Some (VStr "C") ->
       ~ In (<["relevance_score" := VNum score]> d) rs).
Proof.
  destruct (search_returns_only_matches plain_repr ltac:(intros x; discriminate)
              (canned_connection chain_corpus) (canned_collection chain_corpus)
              "settings" None None None 2 false chain_corpus eq_refl eq_refl)
    as (rs & Hrun & Hin & Hout).
  { repeat constructor; vm_compute; reflexivity. }
  exists rs. split; [exact Hrun|]. split; [exact Hin|].
  intros d score Hd Hid. apply (Hout d score Hd).
  intros field Hfield Hkw.
  assert (Hgate : gate plain_repr "settings" (fields_or_default None) false d = true)
    by (apply gate_keyword_in_field; exists field; split; assumption).
  destruct Hd as [<-|[<-|[<-|[]]]].
  - vm_compute in Hgate. discriminate Hgate.
  - vm_compute in Hgate. discriminate Hgate.
  - apply Hid. reflexivity.
Defined.

Lemma search_sorted_stable_witness :
  exists rs found,
    search plain_repr (canned_connection chain_corpus) "Password" None None None
      2 false = Ok rs /\
    Forall2 (scored_from plain_repr "Password" (fields_or_default None) false)
      (List.filter (gate plain_repr "Password" (fields_or_default None) false)
                   chain_corpus)
      found /\
    (forall (i j : nat) a b,
       (i < j)%nat -> rs !! i = Some a -> rs !! j = Some b ->
       (score_of "relevance_score" b <=? score_of "relevance_score" a)%float
       = true) /\
    (forall q : float,
       List.filter (fun r => PrimFloat.eqb (score_of "relevance_score" r) q) rs
       `prefix_of`
       List.filter (fun r => PrimFloat.eqb (score_of "relevance_score" r) q) found).
Proof.
  apply (search_sorted_stable plain_repr ltac:(intros x; discriminate)
           (canned_connection chain_corpus) (canned_collection chain_corpus));
    reflexivity.
Defined.

(** ** Sanity checks of the string model and of the scenarios *)

Example lower_folds_ascii : PyStr.lower "What is Governance?" = "what is governance?".
Proof. reflexivity. Qed.

Example count_is_non_overlapping :
  PyStr.count "aaaa" "aa" = 2 /\ PyStr.count "abc" "" = 4.
Proof. split; reflexivity. Qed.

Example find_first_index :
  PyStr.find "what is governance?" "governance" = 8 /\ PyStr.find "abc" "z" = -1.
Proof. split; reflexivity. Qed.

Example split_on_whitespace :
  PyStr.split "  what is  governance? " = ["what"; "is"; "governance?"].
Proof. reflexivity. Qed.

(** With threshold 0.9375, of the candidates ranked 0.984375, 0.90625 and
    0.625 exactly the first is returned. *)
Example ranked_candidates_above_threshold :
  (fun rs => map (fun d : document => d !! "_id") rs) <$>
    match search_by_vector (canned_connection ranked_candidates)
            (VVec [1%float; 0%float]) 0.9375%float 3 None None None with
    | Ok rs => Some rs
    | Raise _ => None
    end
  = Some [Some (VStr "A")].
Proof. vm_compute. reflexivity. Qed.

(** The reference store refuses to count past the upper bound, and
    [count_documents] answers -1; a small corpus is counted. *)
Example count_small_corpus :
  count_documents (MemStore.connect chain_corpus) None = 3.
Proof. vm_compute. reflexivity. Qed.

(** * Further properties *)

(** ** Vector-driven search on any store *)

Section VectorSearchMore.
Import FloatFacts.

Lemma filter_by_threshold_ok (threshold : float) (cands : list document) :
  forall rs,
    filter_by_threshold threshold cands = Ok rs ->
    rs = map with_score (List.filter (reaches threshold) cands).
Proof.
  induction cands as [|d cands IH]; intros rs H; simpl in H.
  - injection H as <-. reflexivity.
  - change (get d "$similarity" (VNum 0%float)) with (native_of d) in H.
    destruct (native_of d) as [|t|s|v] eqn:Hs; simpl in H; try discriminate.
    destruct (filter_by_threshold threshold cands) as [rest|e]; [|discriminate].
    simpl in H. injection H as <-. rewrite (IH rest eq_refl). simpl.
    assert (Hr : reaches threshold d = (threshold <=? s)%float)
      by (unfold reaches; rewrite Hs; reflexivity).
    rewrite Hr. destruct (threshold <=? s)%float; [|reflexivity].
    rewrite map_cons. f_equal. unfold with_score. rewrite Hs. reflexivity.
Qed.

Lemma search_by_vector_ok (conn : AstraDBConnection) (coll : Collection)
    (query_vector : value) (threshold : float) (limit : Z)
    (category source exclude_id : option string) (cands rs : list document) :
  collection conn = Ok coll ->
  coll_find coll (vector_find_args query_vector limit category source exclude_id)
    = Ok cands ->
  search_by_vector conn query_vector threshold limit category source exclude_id
    = Ok rs ->
  rs = map with_score (List.filter (reaches threshold) cands).
Proof.
  intros Hcoll Hfind H. unfold search_by_vector in H.
  rewrite (collection_connected _ _ Hcoll), Hcoll in H. simpl in H.
  rewrite Hfind in H. simpl in H. apply filter_by_threshold_ok, H.
Qed.

Lemma search_by_vector_inv (conn : AstraDBConnection)
    (query_vector : value) (threshold : float) (limit : Z)
    (category source exclude_id : option string) (rs : list document) :
  search_by_vector conn query_vector threshold limit category source exclude_id
    = Ok rs ->
  exists coll cands,
    collection conn = Ok coll /\
    coll_find coll (vector_find_args query_vector limit category source exclude_id)
      = Ok cands /\
    rs = map with_score (List.filter (reaches threshold) cands).
Proof.
  intros H. pose proof H as H'. unfold search_by_vector in H.
  destruct (negb (is_connected conn)); [discriminate|].
  destruct (collection conn) as [coll|e] eqn:Hcoll; [|discriminate]. simpl in H.
  destruct (coll_find coll _) as [cands|e] eqn:Hfind; [|discriminate].
  exists coll, cands. split; [reflexivity|]. split; [exact Hfind|].
  eapply search_by_vector_ok; eauto.
Qed.

Lemma with_score_scored_above (threshold : float) (d : document) :
  reaches threshold d = true -> scored_above threshold (with_score d).
Proof.
  unfold reaches, with_score, scored_above. intros H.
  destruct (native_of d) as [|t|s|v]; try discriminate.
  exists s. split; [apply lookup_insert_eq|]. split; [exact H|].
  apply leb_not_ltb, H.
Qed.

Lemma map_filter_scored_above (threshold : float) (cands : list document) :
  Forall (scored_above threshold)
         (map with_score (List.filter (reaches threshold) cands)).
Proof.
  apply List.Forall_forall. intros r Hr. apply in_map_iff in Hr as (d & <- & Hd).
  apply filter_In in Hd as [_ Hd]. apply with_score_scored_above, Hd.
Qed.

(** X1: whatever the store answers, every result of [search_by_vector]
    carries a numeric [similarity_score] at or above the threshold, also
    when the store attached no similarity at all. *)
Theorem search_by_vector_scores (conn : AstraDBConnection)
    (query_vector : value) (threshold : float) (limit : Z)
    (category source exclude_id : option string) (rs : list document) :
  search_by_vector conn query_vector threshold limit category source exclude_id
    = Ok rs ->
  Forall (scored_above threshold) rs.
Proof.
  intros H. apply search_by_vector_inv in H as (coll & cands & _ & _ & ->).
  apply map_filter_scored_above.
Qed.

Lemma sublist_map_filter (cands : list document) (f : document -> bool) :
  ((fun d : document => d !! "_id") <$> map with_score (List.filter f cands))
  `sublist_of` ((fun d : document => d !! "_id") <$> cands).
Proof.
  induction cands as [|d cands IH]; simpl; [constructor|].
  destruct (f d); simpl.
  - unfold with_score at 1. rewrite lookup_insert_ne by discriminate.
    apply sublist_skip, IH.
  - apply sublist_cons, IH.
Qed.

(** X2: [search_by_vector] keeps the store's ranking: the identifiers of
    its results are, in order, a subsequence of the identifiers of the
    candidates the store returned, so there are never more results than
    candidates. *)
Theorem search_by_vector_keeps_order (conn : AstraDBConnection)
    (coll : Collection) (query_vector : value) (threshold : float) (limit : Z)
    (category source exclude_id : option string) (cands rs : list document) :
  collection conn = Ok coll ->
  coll_find coll (vector_find_args query_vector limit category source exclude_id)
    = Ok cands ->
  search_by_vector conn query_vector threshold limit category source exclude_id
    = Ok rs ->
  ((fun d : document => d !! "_id") <$> rs)
    `sublist_of` ((fun d : document => d !! "_id") <$> cands) /\
  (length rs <= length cands)%nat.
Proof.
  intros Hcoll Hfind H.
  rewrite (search_by_vector_ok _ _ _ _ _ _ _ _ _ _ Hcoll Hfind H).
  split; [apply sublist_map_filter|].
  rewrite length_map. apply filter_length_le.
Qed.

(** X3: a candidate that comes back without [$similarity] counts as
    similarity 0: it is returned, with [similarity_score] 0, exactly when
    the threshold is at most 0. *)
Theorem search_by_vector_missing_similarity (conn : AstraDBConnection)
    (coll : Collection) (query_vector : value) (threshold : float) (limit : Z)
    (category source exclude_id : option string) (cands rs : list document)
    (d : document) :
  collection conn = Ok coll ->
  coll_find coll (vector_find_args query_vector limit category source exclude_id)
    = Ok cands ->
  search_by_vector conn query_vector threshold limit category source exclude_id
    = Ok rs ->
  In d cands -> d !! "$similarity" = None ->
  In (<["similarity_score" := VNum 0%float]> d) rs <->
  (threshold <=? 0)%float = true.
Proof.
  intros Hcoll Hfind H Hd Hnone.
  rewrite (search_by_vector_ok _ _ _ _ _ _ _ _ _ _ Hcoll Hfind H).
  assert (Hnat : native_of d = VNum 0%float)
    by (unfold native_of, get; rewrite Hnone; reflexivity).
  rewrite in_map_iff. split.
  - intros (d' & Heq & Hd'). apply filter_In in Hd' as [_ Hreach].
    unfold reaches in Hreach. unfold with_score in Heq.
    assert (Hs : native_of d' = VNum 0%float).
    { apply (f_equal (fun m : document => m !! "similarity_score")) in Heq.
      rewrite !lookup_insert_eq in Heq. injection Heq as ->. reflexivity. }
    rewrite Hs in Hreach. exact Hreach.
  - intros Hle. exists d. split.
    + unfold with_score. rewrite Hnat. reflexivity.
    + apply filter_In. split; [exact Hd|]. unfold reaches. rewrite Hnat. exact Hle.
Qed.

Lemma leb_nan_threshold (threshold s : float) :
  PrimFloat.eqb threshold threshold = false -> (threshold <=? s)%float = false.
Proof.
  rewrite FloatAxioms.eqb_spec, FloatAxioms.leb_spec. unfold SFeqb, SFleb.
  destruct (Prim2SF threshold) as [sx|sx| |sx mx ex]; simpl; try reflexivity;
    try (destruct sx; discriminate); try discriminate.
  rewrite Z.compare_refl.
  change (Pos.compare_cont Eq mx mx) with (Pos.compare mx mx).
  rewrite Pos.compare_refl. destruct sx; discriminate.
Qed.

(** X4: with a threshold that is not a number, every comparison fails
    and [search_by_vector] returns the empty list instead of raising. *)
Theorem search_by_vector_nan_threshold (conn : AstraDBConnection)
    (query_vector : value) (threshold : float) (limit : Z)
    (category source exclude_id : option string) (rs : list document) :
  PrimFloat.eqb threshold threshold = false ->
  search_by_vector conn query_vector threshold limit category source exclude_id
    = Ok rs ->
  rs = [].
Proof.
  intros Hnan H. apply search_by_vector_inv in H as (coll & cands & _ & _ & ->).
  induction cands as [|d cands IH]; [reflexivity|]. simpl.
  assert (Hd : reaches threshold d = false).
  { unfold reaches. destruct (native_of d); try reflexivity.
    apply leb_nan_threshold, Hnan. }
  rewrite Hd. exact IH.
Qed.

(** X5: for a source document that has a vector, [find_similar_to_document]
    is the vector-driven search on that vector with the source identifier
    excluded and no source filter; if the store leaves the source out of
    its candidates, no result bears the source identifier. *)
Theorem find_similar_to_document_delegates (conn : AstraDBConnection)
    (coll : Collection) (document_id : string) (threshold : float) (limit : Z)
    (category : option string) (sd : document) (v : value)
    (cands : list document) :
  collection conn = Ok coll ->
  coll_find_one coll {[ "_id" := CEq (VStr document_id) ]} ["$vector"]
    = Ok (Some sd) ->
  sd !! "$vector" = Some v ->
  coll_find coll (vector_find_args v limit category None (Some document_id))
    = Ok cands ->
  Forall (fun d : document => d !! "_id" <> Some (VStr document_id)) cands ->
  find_similar_to_document conn document_id threshold limit category
  = search_by_vector conn v threshold limit category None (Some document_id) /\
  (forall rs,
     find_similar_to_document conn document_id threshold limit category = Ok rs ->
     Forall (fun r : document => r !! "_id" <> Some (VStr document_id)) rs).
Proof.
  intros Hcoll Hone Hvec Hfind Hexcl.
  assert (E : find_similar_to_document conn document_id threshold limit category
              = search_by_vector conn v threshold limit category None
                  (Some document_id)).
  { unfold find_similar_to_document.
    rewrite (collection_connected _ _ Hcoll), Hcoll. simpl. rewrite Hone. simpl.
    destruct (decide (dom sd = ∅)) as [Hdom|_].
    - apply dom_empty_inv_L in Hdom. subst sd. rewrite lookup_empty in Hvec.
      discriminate.
    - rewrite Hvec. reflexivity. }
  split; [exact E|]. intros rs Hrs. rewrite E in Hrs.
  rewrite (search_by_vector_ok _ _ _ _ _ _ _ _ _ _ Hcoll Hfind Hrs).
  apply List.Forall_forall. intros r Hr. apply in_map_iff in Hr as (d & <- & Hd).
  apply filter_In in Hd as [Hd _]. unfold with_score.
  rewrite lookup_insert_ne by discriminate.
  rewrite List.Forall_forall in Hexcl. apply Hexcl, Hd.
Qed.

End VectorSearchMore.

Lemma search_by_vector_scores_witness :
  Forall (scored_above 0.9375%float)
         (map with_score (List.filter (reaches 0.9375%float) ranked_candidates)).
Proof.
  apply (search_by_vector_scores (canned_connection ranked_candidates)
           (VVec [1%float; 0%float]) 0.9375%float 3 None None None).
  reflexivity.
Defined.

Lemma search_by_vector_keeps_order_witness :
  ((fun d : document => d !! "_id")
     <$> map with_score (List.filter (reaches 0.75%float) ranked_candidates))
    `sublist_of` ((fun d : document => d !! "_id") <$> ranked_candidates) /\
  (length (map with_score (List.filter (reaches 0.75%float) ranked_candidates))
   <= length ranked_candidates)%nat.
Proof.
  apply (search_by_vector_keeps_order (canned_connection ranked_candidates)
           (canned_collection ranked_candidates)
           (VVec [1%float; 0%float]) 0.75%float 3 None None None);
    [reflexivity|reflexivity|reflexivity].
Defined.

Lemma search_by_vector_missing_similarity_witness :
  In (<["similarity_score" := VNum 0%float]> ranked_source)
     (map with_score (List.filter (reaches 0%float) [ranked_source])) <->
  (0 <=? 0)%float = true.
Proof.
  apply (search_by_vector_missing_similarity (canned_connection [ranked_source])
           (canned_collection [ranked_source])
           (VVec [1%float; 0%float]) 0%float 3 None None None [ranked_source]);
    [reflexivity|reflexivity|reflexivity|left; reflexivity
    |reflexivity].
Defined.

Lemma search_by_vector_nan_threshold_witness :
  map with_score (List.filter (reaches PrimFloat.nan) ranked_candidates) = [].
Proof.
  apply (search_by_vector_nan_threshold (canned_connection ranked_candidates)
           (VVec [1%float; 0%float]) PrimFloat.nan 3 None None None);
    reflexivity.
Defined.

Lemma find_similar_to_document_delegates_witness :
  find_similar_to_document (source_connection ranked_source ranked_candidates)
    "S" 0.9375%float 3 None
  = search_by_vector (source_connection ranked_source ranked_candidates)
      (VVec [1%float; 0%float]) 0.9375%float 3 None None (Some "S") /\
  (forall rs,
     find_similar_to_document (source_connection ranked_source ranked_candidates)
       "S" 0.9375%float 3 None = Ok rs ->
     Forall (fun r : document => r !! "_id" <> Some (VStr "S")) rs).
Proof.
  apply (find_similar_to_document_delegates
           (source_connection ranked_source ranked_candidates)
           (source_collection ranked_source ranked_candidates)
           "S" 0.9375%float 3 None ranked_source (VVec [1%float; 0%float])
           ranked_candidates);
    [reflexivity|reflexivity|reflexivity|reflexivity|].
  repeat constructor; vm_compute; discriminate.
Defined.

(** ** Duplicate groups *)

Section DuplicatesMore.

Variable float_repr : float -> string.

Lemma find_similar_to_document_scored (conn : AstraDBConnection)
    (document_id : string) (threshold : float) (limit : Z)
    (category : option string) (rs : list document) :
  find_similar_to_document conn document_id threshold limit category = Ok rs ->
  Forall (scored_above threshold) rs.
Proof.
  unfold find_similar_to_document. intros H.
  destruct (negb (is_connected conn)); [discriminate|].
  destruct (collection conn) as [coll|e]; [|discriminate]. simpl in H.
  destruct (coll_find_one coll _ _) as [[sd|]|e]; simpl in H; try discriminate.
  destruct (decide (dom sd = ∅)); [discriminate|].
  destruct (sd !! "$vector") as [v|]; [|discriminate].
  apply search_by_vector_inv in H as (coll' & cands & _ & _ & ->).
  apply map_filter_scored_above.
Qed.

Lemma scan_documents_emitted (conn : AstraDBConnection) (threshold : float)
    (limit_per_query : Z) (documents : list document) :
  forall processed_ids duplicate_groups groups,
    scan_documents float_repr conn threshold limit_per_query documents
      processed_ids duplicate_groups = Ok groups ->
    exists new,
      groups = duplicate_groups ++ new /\
      Forall (emitted_from float_repr conn threshold limit_per_query documents) new /\
      map primary_id new `sublist_of` document_ids float_repr documents.
Proof.
  induction documents as [|doc rest IH];
    intros processed_ids duplicate_groups groups H; simpl in H.
  - injection H as <-. exists []. rewrite app_nil_r.
    split; [reflexivity|]. split; constructor.
  - assert (Hweak : forall new,
      Forall (emitted_from float_repr conn threshold limit_per_query rest) new ->
      Forall (emitted_from float_repr conn threshold limit_per_query (doc :: rest)) new).
    { intros new Hnew. eapply Forall_impl; [exact Hnew|].
      intros g (d & i & Hin & Hrest). exists d, i. split; [right; exact Hin|exact Hrest]. }
    unfold getitem in H. destruct (doc !! "_id") as [i|] eqn:Hid; [|discriminate].
    simpl in H. unfold document_ids. simpl. rewrite Hid. simpl.
    fold (document_ids float_repr rest).
    destruct (decide (py_str float_repr i ∈ processed_ids)) as [Hin|Hnew].
    { destruct (IH _ _ _ H) as (new & -> & Hall & Hsub).
      exists new. split; [reflexivity|]. split; [apply Hweak, Hall|].
      apply sublist_cons, Hsub. }
    destruct (find_similar_to_document conn (py_str float_repr i) threshold
                limit_per_query None) as [similar|e] eqn:Hsim; [|discriminate].
    simpl in H. destruct similar as [|d similar].
    { destruct (IH _ _ _ H) as (new & -> & Hall & Hsub).
      exists new. split; [reflexivity|]. split; [apply Hweak, Hall|].
      apply sublist_cons, Hsub. }
    destruct (mark_processed float_repr (d :: similar) _) as [marked|e];
      [|discriminate].
    simpl in H. destruct (IH _ _ _ H) as (new & -> & Hall & Hsub).
    eexists (_ :: new). split; [rewrite <- app_assoc; reflexivity|]. split.
    + constructor; [|apply Hweak, Hall].
      exists doc, i. simpl.
      split; [left; reflexivity|]. split; [exact Hid|].
      split; [reflexivity|]. split; [reflexivity|].
      split; [exact Hsim|]. split; [discriminate|reflexivity].
    + simpl. apply sublist_skip, Hsub.
Qed.

Lemma find_potential_duplicates_emitted (conn : AstraDBConnection)
    (threshold : float) (limit_per_query : Z) (sample_size : option Z)
    (groups : list duplicate_group) :
  find_potential_duplicates float_repr conn threshold limit_per_query sample_size
    = Ok groups ->
  exists coll documents,
    collection conn = Ok coll /\
    coll_find coll (duplicates_find_args sample_size) = Ok documents /\
    Forall (emitted_from float_repr conn threshold limit_per_query documents)
           groups /\
    map primary_id groups `sublist_of` document_ids float_repr documents.
Proof.
  unfold find_potential_duplicates. intros H.
  destruct (negb (is_connected conn)); [discriminate|].
  destruct (collection conn) as [coll|e]; [|discriminate]. simpl in H.
  fold (duplicates_find_args sample_size) in H.
  destruct (coll_find coll (duplicates_find_args sample_size))
    as [documents|e] eqn:Hfind; [|discriminate].
  simpl in H. apply scan_documents_emitted in H as (new & -> & Hall & Hsub).
  exists coll, documents. auto.
Qed.

(** X6: every group that [find_potential_duplicates] emits lists at
    least one duplicate, and its count is the number of duplicates plus
    one, hence at least 2. *)
Theorem duplicate_groups_shape (conn : AstraDBConnection) (threshold : float)
    (limit_per_query : Z) (sample_size : option Z)
    (groups : list duplicate_group) :
  find_potential_duplicates float_repr conn threshold limit_per_query sample_size
    = Ok groups ->
  Forall (fun g => duplicates g <> [] /\
                   count g = Z.of_nat (length (duplicates g)) + 1 /\
                   2 <= count g) groups.
Proof.
  intros H.
  apply find_potential_duplicates_emitted in H as (coll & docs & _ & _ & Hall & _).
  eapply Forall_impl; [exact Hall|].
  intros g (doc & i & _ & _ & _ & _ & _ & Hne & Hcount).
  split; [exact Hne|]. split; [exact Hcount|].
  destruct (duplicates g); [congruence|]. simpl in Hcount. lia.
Qed.

(** X7: every duplicate listed in any emitted group carries a numeric
    [similarity_score] at or above the threshold of the scan. *)
Theorem duplicate_groups_scores (conn : AstraDBConnection) (threshold : float)
    (limit_per_query : Z) (sample_size : option Z)
    (groups : list duplicate_group) :
  find_potential_duplicates float_repr conn threshold limit_per_query sample_size
    = Ok groups ->
  Forall (fun g => Forall (scored_above threshold) (duplicates g)) groups.
Proof.
  intros H.
  apply find_potential_duplicates_emitted in H as (coll & docs & _ & _ & Hall & _).
  eapply Forall_impl; [exact Hall|].
  intros g (doc & i & _ & _ & _ & _ & Hsim & _).
  eapply find_similar_to_document_scored, Hsim.
Qed.

(** X8: the primaries of the emitted groups are identifiers of fetched
    documents, in the order in which the store returned those documents;
    each group is the result of the similarity lookup for its primary. *)
Theorem duplicate_primaries_in_store_order (conn : AstraDBConnection)
    (coll : Collection) (threshold : float) (limit_per_query : Z)
    (sample_size : option Z) (documents : list document)
    (groups : list duplicate_group) :
  collection conn = Ok coll ->
  coll_find coll (duplicates_find_args sample_size) = Ok documents ->
  find_potential_duplicates float_repr conn threshold limit_per_query sample_size
    = Ok groups ->
  map primary_id groups `sublist_of` document_ids float_repr documents /\
  Forall (fun g =>
            find_similar_to_document conn (primary_id g) threshold
              limit_per_query None = Ok (duplicates g)) groups.
Proof.
  intros Hcoll Hfind H.
  apply find_potential_duplicates_emitted in H
    as (coll' & docs & Hcoll' & Hfind' & Hall & Hsub).
  rewrite Hcoll in Hcoll'. injection Hcoll' as <-.
  rewrite Hfind in Hfind'. injection Hfind' as <-.
  split; [exact Hsub|]. eapply Forall_impl; [exact Hall|].
  intros g (doc & i & _ & _ & -> & _ & Hsim & _). exact Hsim.
Qed.

Lemma scan_documents_aborts (conn : AstraDBConnection) (threshold : float)
    (limit_per_query : Z) (pre : list document) :
  forall (d : document) (post : list document) (i : value) (e : exn)
         (processed_ids : gset string) (duplicate_groups : list duplicate_group),
    Forall (fun p : document =>
              exists j, p !! "_id" = Some j /\
                find_similar_to_document conn (py_str float_repr j) threshold
                  limit_per_query None = Ok []) pre ->
    d !! "_id" = Some i ->
    py_str float_repr i ∉ processed_ids ->
    find_similar_to_document conn (py_str float_repr i) threshold
      limit_per_query None = Raise e ->
    scan_documents float_repr conn threshold limit_per_query (pre ++ d :: post)
      processed_ids duplicate_groups = Raise e.
Proof.
  induction pre as [|p pre IH];
    intros d post i e processed_ids duplicate_groups Hpre Hid Hnew Hfail; simpl.
  - unfold getitem. rewrite Hid. simpl.
    destruct (decide (py_str float_repr i ∈ processed_ids)); [contradiction|].
    rewrite Hfail. reflexivity.
  - inversion Hpre as [|? ? (j & Hj & Hnone) Hpre']; subst.
    unfold getitem. rewrite Hj. simpl.
    destruct (decide (py_str float_repr j ∈ processed_ids)).
    + eapply IH; eauto.
    + rewrite Hnone. simpl. eapply IH; eauto.
Qed.

(** X9: the scan has no partial result: when the similarity lookup of a
    fetched document raises (as it does for a document stored without a
    vector) and no earlier document had a duplicate,
    [find_potential_duplicates] raises that error. *)
Theorem find_potential_duplicates_aborts (conn : AstraDBConnection)
    (coll : Collection) (threshold : float) (limit_per_query : Z)
    (sample_size : option Z) (pre post : list document) (d : document)
    (i : value) (e : exn) :
  collection conn = Ok coll ->
  coll_find coll (duplicates_find_args sample_size) = Ok (pre ++ d :: post) ->
  Forall (fun p : document =>
            exists j, p !! "_id" = Some j /\
              find_similar_to_document conn (py_str float_repr j) threshold
                limit_per_query None = Ok []) pre ->
  d !! "_id" = Some i ->
  find_similar_to_document conn (py_str float_repr i) threshold
    limit_per_query None = Raise e ->
  find_potential_duplicates float_repr conn threshold limit_per_query sample_size
  = Raise e.
Proof.
  intros Hcoll Hfind Hpre Hid Hfail. unfold find_potential_duplicates.
  rewrite (collection_connected _ _ Hcoll), Hcoll. simpl.
  fold (duplicates_find_args sample_size). rewrite Hfind. simpl.
  eapply scan_documents_aborts; eauto. apply not_elem_of_empty.
Qed.

End DuplicatesMore.

Lemma duplicate_groups_shape_witness :
  exists groups,
    find_potential_duplicates plain_repr
      (source_connection ranked_source ranked_candidates) 0.9375%float 5 None
    = Ok groups /\
    Forall (fun g => duplicates g <> [] /\
                     count g = Z.of_nat (length (duplicates g)) + 1 /\
                     2 <= count g) groups.
Proof.
  eexists. split; [reflexivity|].
  apply (duplicate_groups_shape plain_repr
           (source_connection ranked_source ranked_candidates) 0.9375%float 5 None).
  reflexivity.
Defined.

Lemma duplicate_groups_scores_witness :
  exists groups,
    find_potential_duplicates plain_repr
      (source_connection ranked_source ranked_candidates) 0.9375%float 5 None
    = Ok groups /\
    Forall (fun g => Forall (scored_above 0.9375%float) (duplicates g)) groups.
Proof.
  eexists. split; [reflexivity|].
  apply (duplicate_groups_scores plain_repr
           (source_connection ranked_source ranked_candidates) 0.9375%float 5 None).
  reflexivity.
Defined.

Lemma duplicate_primaries_in_store_order_witness :
  exists groups,
    find_potential_duplicates plain_repr
      (source_connection ranked_source ranked_candidates) 0.9375%float 5 None
    = Ok groups /\
    map primary_id groups `sublist_of` document_ids plain_repr ranked_candidates /\
    Forall (fun g =>
              find_similar_to_document
                (source_connection ranked_source ranked_candidates)
                (primary_id g) 0.9375%float 5 None = Ok (duplicates g)) groups.
Proof.
  eexists. split; [reflexivity|].
  apply (duplicate_primaries_in_store_order plain_repr
           (source_connection ranked_source ranked_candidates)
           (source_collection ranked_source ranked_candidates)
           0.9375%float 5 None ranked_candidates);
    reflexivity.
Defined.

Lemma find_potential_duplicates_aborts_witness :
  find_potential_duplicates plain_repr (canned_connection unembedded_corpus)
    ninety 5 None
  = Raise (ValueError "Document N has no vector embedding").
Proof.
  apply (find_potential_duplicates_aborts plain_repr
           (canned_connection unembedded_corpus)
           (canned_collection unembedded_corpus) ninety 5 None
           [] [] (<["_id" := VStr "N"]> (<["question" := VStr "Who approves access?"]>
                    (<["answer" := VStr "unanswered"]> ∅))) (VStr "N"));
    [reflexivity|reflexivity|constructor|reflexivity|reflexivity].
Defined.

(** ** Pairwise comparison *)

Section ComparisonFacts.
Import FloatFacts.

Variable float_repr : float -> string.

Lemma filter_by_threshold_numeric (threshold : float) (cands : list document) :
  Forall numeric_similarity cands ->
  filter_by_threshold threshold cands
  = Ok (map with_score (List.filter (reaches threshold) cands)).
Proof.
  induction cands as [|d cands IH]; intros Hall; [reflexivity|].
  inversion Hall as [|? ? [s Hs] Hrest]; subst.
  destruct (filter_by_threshold threshold (d :: cands)) as [rs|e] eqn:H.
  - f_equal. apply filter_by_threshold_ok, H.
  - simpl in H. change (get d "$similarity" (VNum 0%float)) with (native_of d) in H.
    rewrite Hs, (IH Hrest) in H. discriminate.
Qed.

Lemma search_by_vector_numeric (conn : AstraDBConnection) (coll : Collection)
    (query_vector : value) (threshold : float) (limit : Z)
    (category source exclude_id : option string) (cands : list document) :
  collection conn = Ok coll ->
  coll_find coll (vector_find_args query_vector limit category source exclude_id)
    = Ok cands ->
  Forall numeric_similarity cands ->
  search_by_vector conn query_vector threshold limit category source exclude_id
  = Ok (map with_score (List.filter (reaches threshold) cands)).
Proof.
  intros Hcoll Hfind Hnum. unfold search_by_vector.
  rewrite (collection_connected _ _ Hcoll), Hcoll. simpl. rewrite Hfind. simpl.
  apply filter_by_threshold_numeric, Hnum.
Qed.

(** X10: [compare_questions] raises ValueError when either document is
    not in the store, and when either stored document has no vector; it
    reports no similarity in these cases. *)
Theorem compare_questions_missing (conn : AstraDBConnection) (coll : Collection)
    (question1_id question2_id : string) (found1 found2 : option document) :
  collection conn = Ok coll ->
  coll_find_one coll {[ "_id" := CEq (VStr question1_id) ]} comparison_projection
    = Ok found1 ->
  coll_find_one coll {[ "_id" := CEq (VStr question2_id) ]} comparison_projection
    = Ok found2 ->
  (found1 = None \/ found2 = None ->
   compare_questions float_repr conn question1_id question2_id
   = Raise (ValueError "One or both documents not found")) /\
  (forall d1 d2 i1 i2,
     found1 = Some d1 -> found2 = Some d2 ->
     d1 !! "_id" = Some i1 -> d2 !! "_id" = Some i2 ->
     d1 !! "$vector" = None \/ d2 !! "$vector" = None ->
     compare_questions float_repr conn question1_id question2_id
     = Raise (ValueError "One or both documents missing vector embeddings")).
Proof.
  intros Hcoll H1 H2. unfold compare_questions.
  rewrite (collection_connected _ _ Hcoll), Hcoll. simpl.
  rewrite H1. simpl. rewrite H2. simpl. split.
  - intros [->| ->]; [reflexivity|]. destruct found1; reflexivity.
  - intros d1 d2 i1 i2 -> -> Hi1 Hi2 Hvec.
    destruct (decide (dom d1 = ∅ \/ dom d2 = ∅)) as [[Hd|Hd]|_].
    + apply dom_empty_inv_L in Hd. subst d1. rewrite lookup_empty in Hi1. discriminate.
    + apply dom_empty_inv_L in Hd. subst d2. rewrite lookup_empty in Hi2. discriminate.
    + destruct Hvec as [-> | ->]; [reflexivity|].
      destruct (d1 !! "$vector"); reflexivity.
Qed.

Lemma with_score_id (d : document) : with_score d !! "_id" = d !! "_id".
Proof. unfold with_score. apply lookup_insert_ne. discriminate. Qed.

Lemma with_score_get (d : document) (default : value) :
  get (with_score d) "similarity_score" default = native_of d.
Proof. unfold get, with_score. rewrite lookup_insert_eq. reflexivity. Qed.

Lemma find_doc2_absent (similar : list document) (question2_id : string) :
  Forall (fun r : document =>
            exists i, r !! "_id" = Some i /\ py_str float_repr i <> question2_id)
         similar ->
  find_doc2 float_repr similar question2_id = Ok (VNum 0%float).
Proof.
  induction 1 as [|r similar (i & Hi & Hne) _ IH]; simpl; [reflexivity|].
  unfold getitem. rewrite Hi. simpl.
  destruct (String.eqb_spec (py_str float_repr i) question2_id); [contradiction|].
  exact IH.
Qed.

(** X11: the comparison looks only at the single nearest neighbour it
    asks the store for: when the second document is not among the
    candidates returned for limit 1, the reported similarity is 0.0 and
    the pair is not flagged as a likely duplicate, whatever the true
    similarity of the two documents. *)
Theorem compare_questions_outside_window (conn : AstraDBConnection)
    (coll : Collection) (question1_id question2_id : string)
    (d1 d2 : document) (v1 v2 : value) (cands : list document) :
  collection conn = Ok coll ->
  coll_find_one coll {[ "_id" := CEq (VStr question1_id) ]} comparison_projection
    = Ok (Some d1) ->
  coll_find_one coll {[ "_id" := CEq (VStr question2_id) ]} comparison_projection
    = Ok (Some d2) ->
  d1 !! "$vector" = Some v1 -> d2 !! "$vector" = Some v2 ->
  coll_find coll (vector_find_args v1 1 None None (Some question1_id)) = Ok cands ->
  Forall numeric_similarity cands ->
  Forall (fun r : document =>
            exists i, r !! "_id" = Some i /\ py_str float_repr i <> question2_id)
         cands ->
  exists c,
    compare_questions float_repr conn question1_id question2_id = Ok c /\
    similarity_score c = VNum 0%float /\ is_likely_duplicate c = false.
Proof.
  intros Hcoll H1 H2 Hv1 Hv2 Hfind Hnum Hother. unfold compare_questions.
  rewrite (collection_connected _ _ Hcoll), Hcoll. simpl.
  rewrite H1. simpl. rewrite H2. simpl.
  destruct (decide (dom d1 = ∅ \/ dom d2 = ∅)) as [[Hd|Hd]|_].
  { apply dom_empty_inv_L in Hd. subst d1. rewrite lookup_empty in Hv1. discriminate. }
  { apply dom_empty_inv_L in Hd. subst d2. rewrite lookup_empty in Hv2. discriminate. }
  rewrite Hv1, Hv2.
  rewrite (search_by_vector_numeric conn coll v1 0%float 1 None None
             (Some question1_id) cands Hcoll Hfind Hnum). simpl.
  rewrite find_doc2_absent.
  - simpl. eexists. split; [reflexivity|]. split; reflexivity.
  - apply List.Forall_forall. intros r Hr. apply in_map_iff in Hr as (d & <- & Hd).
    apply filter_In in Hd as [Hd _].
    rewrite List.Forall_forall in Hother. destruct (Hother d Hd) as (i & Hi & Hne).
    exists i. split; [|exact Hne]. unfold with_score.
    rewrite lookup_insert_ne by discriminate. exact Hi.
Qed.

(** X12: when the nearest neighbour the store returns is the second
    document, with a similarity that is not negative, the comparison
    reports that similarity and flags a likely duplicate exactly when it
    is at least 0.90. *)
Theorem compare_questions_nearest (conn : AstraDBConnection)
    (coll : Collection) (question1_id question2_id : string)
    (d1 d2 : document) (v1 v2 : value) (c : document) (rest : list document)
    (i : value) (s : float) :
  collection conn = Ok coll ->
  coll_find_one coll {[ "_id" := CEq (VStr question1_id) ]} comparison_projection
    = Ok (Some d1) ->
  coll_find_one coll {[ "_id" := CEq (VStr question2_id) ]} comparison_projection
    = Ok (Some d2) ->
  d1 !! "$vector" = Some v1 -> d2 !! "$vector" = Some v2 ->
  coll_find coll (vector_find_args v1 1 None None (Some question1_id))
    = Ok (c :: rest) ->
  Forall numeric_similarity rest ->
  c !! "_id" = Some i -> py_str float_repr i = question2_id ->
  c !! "$similarity" = Some (VNum s) -> (0 <=? s)%float = true ->
  exists r,
    compare_questions float_repr conn question1_id question2_id = Ok r /\
    similarity_score r = VNum s /\
    is_likely_duplicate r = (ninety <=? s)%float /\
    cd_id (document1 r) = question1_id /\ cd_id (document2 r) = question2_id.
Proof.
  intros Hcoll H1 H2 Hv1 Hv2 Hfind Hnum Hid Hstr Hsim Hpos. unfold compare_questions.
  rewrite (collection_connected _ _ Hcoll), Hcoll. simpl.
  rewrite H1. simpl. rewrite H2. simpl.
  destruct (decide (dom d1 = ∅ \/ dom d2 = ∅)) as [[Hd|Hd]|_].
  { apply dom_empty_inv_L in Hd. subst d1. rewrite lookup_empty in Hv1. discriminate. }
  { apply dom_empty_inv_L in Hd. subst d2. rewrite lookup_empty in Hv2. discriminate. }
  rewrite Hv1, Hv2.
  assert (Hnat : native_of c = VNum s)
    by (unfold native_of, get; rewrite Hsim; reflexivity).
  rewrite (search_by_vector_numeric conn coll v1 0%float 1 None None
             (Some question1_id) (c :: rest) Hcoll Hfind).
  2:{ constructor; [exists s; exact Hnat|exact Hnum]. }
  simpl. unfold reaches at 1. rewrite Hnat, Hpos. simpl.
  unfold getitem. rewrite with_score_id, Hid. simpl.
  rewrite Hstr, String.eqb_refl, with_score_get, Hnat. simpl.
  eexists. split; [reflexivity|]. repeat split; reflexivity.
Qed.

End ComparisonFacts.

Lemma compare_questions_missing_witness :
  compare_questions plain_repr (canned_connection unembedded_corpus) "N" "N"
  = Raise (ValueError "One or both documents missing vector embeddings").
Proof.
  refine (proj2 (compare_questions_missing plain_repr
            (canned_connection unembedded_corpus)
            (canned_collection unembedded_corpus) "N" "N"
            (head unembedded_corpus) (head unembedded_corpus) _ _ _)
            _ _ (VStr "N") (VStr "N") eq_refl eq_refl _ _ _);
    try reflexivity.
  left. reflexivity.
Defined.

Lemma compare_questions_outside_window_witness :
  exists c,
    compare_questions plain_repr
      (source_connection ranked_source ranked_candidates) "S" "Z" = Ok c /\
    similarity_score c = VNum 0%float /\ is_likely_duplicate c = false.
Proof.
  apply (compare_questions_outside_window plain_repr
           (source_connection ranked_source ranked_candidates)
           (source_collection ranked_source ranked_candidates) "S" "Z"
           ranked_source ranked_source (VVec [1%float; 0%float])
           (VVec [1%float; 0%float]) ranked_candidates);
    try reflexivity.
  - repeat constructor; eexists; reflexivity.
  - repeat constructor; eexists; (split; [reflexivity|discriminate]).
Defined.

Lemma compare_questions_nearest_witness :
  exists r,
    compare_questions plain_repr
      (source_connection ranked_source ranked_candidates) "S" "A" = Ok r /\
    similarity_score r = VNum 0.984375%float /\
    is_likely_duplicate r = (ninety <=? 0.984375)%float /\
    cd_id (document1 r) = "S" /\ cd_id (document2 r) = "A".
Proof.
  refine (compare_questions_nearest plain_repr
           (source_connection ranked_source ranked_candidates)
           (source_collection ranked_source ranked_candidates) "S" "A"
           ranked_source ranked_source (VVec [1%float; 0%float])
           (VVec [1%float; 0%float]) _ _ (VStr "A") 0.984375%float
           _ _ _ _ _ _ _ _ _ _ _);
    try reflexivity.
  repeat constructor; eexists; reflexivity.
Defined.

(** ** Text-driven search: scores, order and the embedder's calls *)

Section TextSearchMore.
Import FloatFacts.

Lemma search_by_text_inv (ss : SimilaritySearch) (query_text : string)
    (threshold : float) (limit : Z) (category source : option string)
    (rs : list document) :
  fst (search_by_text ss query_text threshold limit category source) = Ok rs ->
  exists model query_embedding results enhanced,
    embedding_model ss = Ok model /\
    model (VStr query_text) = Ok query_embedding /\
    search_by_vector (connection ss) (VVec query_embedding) threshold (limit * 3)
      category source None = Ok results /\
    fst (enhance_all model query_embedding results) = Ok enhanced /\
    rs = slice_to (sort_desc (score_of "overall_similarity") enhanced) limit /\
    snd (search_by_text ss query_text threshold limit category source)
    = VStr query_text :: snd (enhance_all model query_embedding results).
Proof.
  unfold search_by_text. intros H.
  destruct (negb (is_connected (connection ss))); [discriminate|].
  unfold mbind, traced_bind, mret, traced_ret, lift, encode in *. simpl in *.
  destruct (embedding_model ss) as [m|e] eqn:Hm; simpl in *; [|discriminate].
  destruct (m (VStr query_text)) as [qe|e] eqn:Hqe; simpl in *; [|discriminate].
  destruct (search_by_vector _ _ _ _ _ _ _) as [results|e] eqn:Hsearch;
    simpl in *; [|discriminate].
  destruct (fst (enhance_all m qe results)) as [enhanced|e] eqn:Hall;
    simpl in *; [|discriminate].
  injection H as <-. exists m, qe, results, enhanced.
  rewrite app_nil_r. auto 10.
Qed.

Lemma enhance_ok (model : encoder) (q : list float) (doc r : document) :
  fst (enhance model q doc) = Ok r ->
  r !! "similarity_score" = doc !! "similarity_score" /\
  r !! "overall_similarity" = Some (get doc "similarity_score" (VNum 0%float)) /\
  snd (enhance model q doc) = embedded_texts doc.
Proof.
  unfold enhance, embedded_texts, embedded_question, embedded_answer,
    mbind, traced_bind, mret, traced_ret, lift, encode.
  cbv zeta. intros H.
  destruct (truthy (get doc "question" (VStr ""))
            && negb (eq_str (get doc "question" (VStr "")) "N/A"));
    destruct (truthy (get doc "answer" (VStr ""))
              && negb (existsb (eq_str (get doc "answer" (VStr ""))) no_answer));
    simpl in *;
    repeat match type of H with
    | context [model ?x] => destruct (model x); simpl in *
    | context [_cosine_similarity ?a ?b] =>
        destruct (_cosine_similarity a b); simpl in *
    end; try discriminate;
  injection H as <-;
  (split; [rewrite !lookup_insert_ne by discriminate; reflexivity|]);
  (split; [rewrite lookup_insert_eq; unfold get;
           rewrite !lookup_insert_ne by discriminate; reflexivity|reflexivity]).
Qed.

Lemma enhance_all_trace (model : encoder) (q : list float)
    (results : list document) :
  forall enhanced,
    fst (enhance_all model q results) = Ok enhanced ->
    snd (enhance_all model q results) = flat_map embedded_texts results.
Proof.
  induction results as [|doc rest IH]; intros enhanced H; simpl in *; [reflexivity|].
  unfold mbind, traced_bind, mret, traced_ret in *. simpl in *.
  destruct (fst (enhance model q doc)) as [d|e] eqn:Hd; simpl in *; [|discriminate].
  destruct (fst (enhance_all model q rest)) as [ds|e] eqn:Hds; simpl in *;
    [|discriminate].
  rewrite (proj2 (proj2 (enhance_ok model q doc d Hd))), (IH ds eq_refl).
  rewrite app_nil_r. reflexivity.
Qed.

(** X13: every result of [search_by_text] carries as [overall_similarity]
    the [similarity_score] the vector search gave it, a number at or above
    the threshold. *)
Theorem search_by_text_scores (ss : SimilaritySearch) (query_text : string)
    (threshold : float) (limit : Z) (category source : option string)
    (rs : list document) :
  fst (search_by_text ss query_text threshold limit category source) = Ok rs ->
  Forall (overall_above threshold) rs.
Proof.
  intros H.
  apply search_by_text_inv in H
    as (m & qe & results & enhanced & _ & _ & Hsearch & Hall & -> & _).
  apply List.Forall_forall. intros r Hr. apply In_slice_to in Hr.
  apply (proj1 (In_sort_desc (score_of "overall_similarity") enhanced r)) in Hr.
  destruct (enhance_all_from m qe results enhanced Hall r Hr) as (d & Hd & Hr').
  apply enhance_ok in Hr' as (Hscore & Hoverall & _).
  apply search_by_vector_inv in Hsearch as (coll & cands & _ & _ & ->).
  pose proof (map_filter_scored_above threshold cands) as Hsc.
  rewrite List.Forall_forall in Hsc. destruct (Hsc d Hd) as (s & Hs & Hle & _).
  exists s. rewrite Hoverall, Hscore. unfold get. rewrite Hs. auto.
Qed.

(** X14: the results of [search_by_text] are in non-increasing order of
    [overall_similarity], and for a limit that is not negative there are
    at most [limit] of them. *)
Theorem search_by_text_sorted (ss : SimilaritySearch) (query_text : string)
    (threshold : float) (limit : Z) (category source : option string)
    (rs : list document) :
  fst (search_by_text ss query_text threshold limit category source) = Ok rs ->
  (forall (i j : nat) a b,
     (i < j)%nat -> rs !! i = Some a -> rs !! j = Some b ->
     (score_of "overall_similarity" b <=? score_of "overall_similarity" a)%float
     = true) /\
  (0 <= limit -> Z.of_nat (length rs) <= limit).
Proof.
  intros H.
  apply search_by_text_inv in H
    as (m & qe & results & enhanced & _ & _ & Hsearch & Hall & -> & _).
  split.
  - assert (Hkeys : Forall (fun r => comparable (score_of "overall_similarity" r)
                                     = true) enhanced).
    { apply List.Forall_forall. intros r Hr.
      destruct (enhance_all_from m qe results enhanced Hall r Hr) as (d & Hd & Hr').
      apply enhance_ok in Hr' as (_ & Hoverall & _).
      apply search_by_vector_inv in Hsearch as (coll & cands & _ & _ & ->).
      pose proof (map_filter_scored_above threshold cands) as Hsc.
      rewrite List.Forall_forall in Hsc. destruct (Hsc d Hd) as (s & Hs & Hle & _).
      unfold score_of. rewrite Hoverall. unfold get. rewrite Hs.
      apply (leb_comparable _ _ Hle). }
    destruct (slice_to_firstn (sort_desc (score_of "overall_similarity") enhanced)
                limit) as [k ->].
    apply (StronglySorted_lookup (desc (score_of "overall_similarity"))).
    apply StronglySorted_firstn, sort_desc_sorted, Hkeys.
  - intros Hlimit. unfold slice_to. destruct (Z.ltb_spec limit 0); [lia|].
    pose proof (firstn_le_length (Z.to_nat limit)
                  (sort_desc (score_of "overall_similarity") enhanced)).
    lia.
Qed.

(** X15: a successful [search_by_text] has called the embedder exactly
    once for the query and then, for each candidate of the vector search
    in the store's order (all of the three-fold oversample, also those cut
    off by the limit), once for its question and once for its answer,
    leaving out empty and "N/A" questions and empty, "unanswered" and
    "N/A" answers. *)
Theorem search_by_text_trace (ss : SimilaritySearch) (query_text : string)
    (threshold : float) (limit : Z) (category source : option string)
    (model : encoder) (query_embedding : list float)
    (results rs : list document) :
  embedding_model ss = Ok model ->
  model (VStr query_text) = Ok query_embedding ->
  search_by_vector (connection ss) (VVec query_embedding) threshold (limit * 3)
    category source None = Ok results ->
  fst (search_by_text ss query_text threshold limit category source) = Ok rs ->
  snd (search_by_text ss query_text threshold limit category source)
  = VStr query_text :: flat_map embedded_texts results.
Proof.
  intros Hmodel Hquery Hsearch H.
  apply search_by_text_inv in H
    as (m & qe & results' & enhanced & Hm & Hqe & Hsearch' & Hall & _ & ->).
  rewrite Hmodel in Hm. injection Hm as <-.
  rewrite Hquery in Hqe. injection Hqe as <-.
  rewrite Hsearch in Hsearch'. injection Hsearch' as <-.
  rewrite (enhance_all_trace _ _ _ _ Hall). reflexivity.
Qed.

(** X16: for a candidate whose question is missing, empty or "N/A", the
    loop body of [search_by_text] does not call the embedder for the
    question: the calls it records are those for the answer alone, at
    most one; and it sets [question_similarity] to 0.0. *)
Theorem enhance_skips_missing_question (model : encoder)
    (query_embedding : list float) (doc : document) (s : string) :
  get doc "question" (VStr "") = VStr s -> s = "" \/ s = "N/A" ->
  snd (enhance model query_embedding doc) = embedded_answer doc /\
  ~ In (VStr s) (snd (enhance model query_embedding doc)) /\
  (forall r, fst (enhance model query_embedding doc) = Ok r ->
             r !! "question_similarity" = Some (VNum 0%float)).
Proof.
  intros Hq Hs.
  assert (Hskip : truthy (VStr s) && negb (eq_str (VStr s) "N/A") = false)
    by (destruct Hs as [-> | ->]; reflexivity).
  assert (Htrace : snd (enhance model query_embedding doc) = embedded_answer doc).
  { unfold enhance, embedded_answer, mbind, traced_bind, mret, traced_ret, lift,
      encode.
    cbv zeta. rewrite Hq, Hskip.
    destruct (truthy (get doc "answer" (VStr ""))
              && negb (existsb (eq_str (get doc "answer" (VStr ""))) no_answer));
      simpl; [|reflexivity].
    destruct (model (get doc "answer" (VStr ""))) as [emb|e]; simpl;
      [|reflexivity].
    destruct (_cosine_similarity query_embedding emb); reflexivity. }
  split; [exact Htrace|]. split.
  - rewrite Htrace. unfold embedded_answer. cbv zeta.
    destruct (truthy (get doc "answer" (VStr ""))
              && negb (existsb (eq_str (get doc "answer" (VStr ""))) no_answer))
      eqn:Hans; [|intros []].
    intros [Heq|[]]. rewrite Heq in Hans.
    destruct Hs as [-> | ->]; discriminate Hans.
  - unfold enhance, mbind, traced_bind, mret, traced_ret, lift, encode.
    cbv zeta. rewrite Hq, Hskip. intros r H.
    destruct (truthy (get doc "answer" (VStr ""))
              && negb (existsb (eq_str (get doc "answer" (VStr ""))) no_answer));
      simpl in H;
      repeat match type of H with
      | context [model ?x] => destruct (model x); simpl in H
      | context [_cosine_similarity ?a ?b] =>
          destruct (_cosine_similarity a b); simpl in H
      end; try discriminate; injection H as <-;
      rewrite !lookup_insert_ne by discriminate; apply lookup_insert_eq.
Qed.

End TextSearchMore.

Lemma search_by_text_scores_witness :
  exists rs,
    fst (search_by_text text_search "reset" 0.75%float 5 None None) = Ok rs /\
    Forall (overall_above 0.75%float) rs.
Proof.
  eexists. split; [reflexivity|].
  apply (search_by_text_scores text_search "reset" 0.75%float 5 None None).
  reflexivity.
Defined.

Lemma search_by_text_sorted_witness :
  exists rs,
    fst (search_by_text text_search "reset" 0.75%float 5 None None) = Ok rs /\
    (forall (i j : nat) a b,
       (i < j)%nat -> rs !! i = Some a -> rs !! j = Some b ->
       (score_of "overall_similarity" b <=? score_of "overall_similarity" a)%float
       = true) /\
    (0 <= 5 -> Z.of_nat (length rs) <= 5).
Proof.
  eexists. split; [reflexivity|].
  apply (search_by_text_sorted text_search "reset" 0.75%float 5 None None).
  reflexivity.
Defined.

Lemma search_by_text_trace_witness :
  snd (search_by_text text_search "reset" 0.75%float 5 None None)
  = VStr "reset"
    :: flat_map embedded_texts
         (map with_score (List.filter (reaches 0.75%float) answered_candidates)).
Proof.
  eapply (search_by_text_trace text_search "reset" 0.75%float 5 None None
            constant_encoder [1%float; 0%float]);
    reflexivity.
Defined.

Lemma enhance_skips_missing_question_witness :
  snd (enhance constant_encoder [1%float; 0%float] unasked_candidate)
  = [VStr "Use the reset link."] /\
  ~ In (VStr "N/A")
       (snd (enhance constant_encoder [1%float; 0%float] unasked_candidate)) /\
  (forall r,
     fst (enhance constant_encoder [1%float; 0%float] unasked_candidate) = Ok r ->
     r !! "question_similarity" = Some (VNum 0%float)).
Proof.
  apply (enhance_skips_missing_question constant_encoder [1%float; 0%float]
           unasked_candidate "N/A");
    [reflexivity|right; reflexivity].
Defined.

(** ** Keyword search: sizes, score range and the gate *)

Section StringMore.

Lemma count_from_nonneg (sub : string) : forall s skip,
  0 <= PyStr.count_from sub s skip.
Proof.
  induction s as [|c s IH]; intros skip.
  - change (PyStr.count_from sub "" skip)
      with (if String.prefix sub "" then 1 else 0).
    destruct (String.prefix sub ""); lia.
  - change (PyStr.count_from sub (String c s) skip)
      with (match skip with
            | S k => PyStr.count_from sub s k
            | O => if String.prefix sub (String c s)
                   then 1 + PyStr.count_from sub s (String.length sub - 1)
                   else PyStr.count_from sub s 0
            end).
    destruct skip; [|apply IH].
    destruct (String.prefix sub (String c s)); [|apply IH].
    pose proof (IH (String.length sub - 1)%nat). lia.
Qed.

(** [s.count(sub) > 0] exactly when [sub in s]. *)
Lemma count_pos_contains (sub : string) : forall s,
  (0 <? PyStr.count s sub) = PyStr.contains sub s.
Proof.
  unfold PyStr.count. induction s as [|c s IH].
  - change (PyStr.count_from sub "" 0)
      with (if String.prefix sub "" then 1 else 0).
    change (PyStr.contains sub "") with (String.prefix sub "" || false).
    destruct (String.prefix sub ""); reflexivity.
  - change (PyStr.count_from sub (String c s) 0)
      with (if String.prefix sub (String c s)
            then 1 + PyStr.count_from sub s (String.length sub - 1)
            else PyStr.count_from sub s 0).
    change (PyStr.contains sub (String c s))
      with (String.prefix sub (String c s) || PyStr.contains sub s).
    destruct (String.prefix sub (String c s)); simpl; [|exact IH].
    pose proof (count_from_nonneg sub s (String.length sub - 1)%nat).
    apply Z.ltb_lt. lia.
Qed.

Lemma contains_empty (s : string) : PyStr.contains "" s = true.
Proof. destruct s; reflexivity. Qed.

End StringMore.

Section KeywordSearchMore.
Import FloatFacts.

Variable float_repr : float -> string.
Hypothesis float_repr_nonempty : forall x, float_repr x <> "".

(** A field contributes to the score exactly when it holds the keyword. *)
Lemma field_score_some (doc : document) (keyword_lower : string)
    (case_sensitive : bool) (field : string) :
  (exists x, field_score float_repr doc keyword_lower case_sensitive field
             = Ok (Some x)) <->
  (exists v, doc !! field = Some v /\ truthy v = true /\
     PyStr.contains keyword_lower
       (fold_case case_sensitive (py_str float_repr v)) = true).
Proof using float_repr_nonempty.
  unfold field_score. destruct (doc !! field) as [v|].
  2:{ split; [intros [x [=]]|intros (v & [=] & _)]. }
  destruct (truthy v) eqn:Hv; simpl.
  2:{ split; [intros [x [=]]|]. intros (v' & [= <-] & Hv' & _). congruence. }
  rewrite count_pos_contains.
  destruct (PyStr.contains keyword_lower _) eqn:Hc.
  - unfold int_truediv.
    destruct (Z.eqb_spec (PyStr.len (py_str float_repr v)) 0) as [Hlen|Hlen];
      [exfalso; exact (py_str_truthy float_repr float_repr_nonempty v Hv Hlen)|].
    simpl. split; [intros _; exists v; auto|intros _; eauto].
  - split; [intros [x [=]]|]. intros (v' & [= <-] & _ & Hc'). congruence.
Qed.

Lemma field_score_none (doc : document) (keyword_lower : string)
    (case_sensitive : bool) (field : string) :
  match doc !! field with
  | Some v =>
      truthy v &&
      PyStr.contains keyword_lower (fold_case case_sensitive (py_str float_repr v))
  | None => false
  end = false ->
  field_score float_repr doc keyword_lower case_sensitive field = Ok None.
Proof using Type.
  unfold field_score. destruct (doc !! field) as [v|]; [|reflexivity].
  destruct (truthy v); simpl; [|reflexivity].
  rewrite count_pos_contains. intros ->. reflexivity.
Qed.

(** X17: a document passes the match gate of [search] exactly when the
    relevance scorer finds at least one requested field that contributes
    to its score. *)
Theorem gate_agrees_with_scorer (doc : document) (keyword : string)
    (fields : list string) (case_sensitive : bool) :
  matches float_repr doc (fold_case case_sensitive keyword) fields case_sensitive
    = true <->
  exists field x,
    In field fields /\
    field_score float_repr doc (fold_case case_sensitive keyword)
                case_sensitive field = Ok (Some x).
Proof using float_repr_nonempty.
  unfold matches. rewrite existsb_exists. split.
  - intros (field & Hin & H).
    destruct (doc !! field) as [v|] eqn:Hv; [|discriminate].
    apply andb_true_iff in H as [Ht Hc].
    destruct (proj2 (field_score_some doc (fold_case case_sensitive keyword)
                       case_sensitive field)) as [x Hx]; [|eauto].
    exists v. rewrite Hv. auto.
  - intros (field & x & Hin & Hx). exists field. split; [exact Hin|].
    destruct (proj1 (field_score_some doc (fold_case case_sensitive keyword)
                       case_sensitive field) (ex_intro _ x Hx))
      as (v & -> & Ht & Hc).
    rewrite Ht. exact Hc.
Qed.

Lemma score_fields_no_match (doc : document) (keyword_lower : string)
    (case_sensitive : bool) (fields : list string) (score : float) :
  matches float_repr doc keyword_lower fields case_sensitive = false ->
  score_fields float_repr doc keyword_lower case_sensitive score fields = Ok score.
Proof using Type.
  unfold matches. induction fields as [|field rest IH]; simpl; [reflexivity|].
  intros H. apply orb_false_iff in H as [Hfield Hrest].
  rewrite (field_score_none doc keyword_lower case_sensitive field Hfield).
  simpl. apply IH, Hrest.
Qed.

(** X18: for a document that does not pass the match gate, the relevance
    scorer returns exactly 0.0. *)
Theorem calculate_relevance_no_match (doc : document) (keyword : string)
    (fields : list string) (case_sensitive : bool) :
  matches float_repr doc (fold_case case_sensitive keyword) fields case_sensitive
    = false ->
  _calculate_relevance float_repr doc keyword fields case_sensitive = Ok 0%float.
Proof using Type.
  intros H. unfold _calculate_relevance.
  rewrite (score_fields_no_match _ _ _ _ _ H). reflexivity.
Qed.

(** X19: with the empty keyword every document that has a non-empty value
    in some requested field passes the match gate, and no other does. *)
Theorem empty_keyword_matches_nonempty (doc : document) (fields : list string)
    (case_sensitive : bool) :
  matches float_repr doc (fold_case case_sensitive "") fields case_sensitive = true
  <->
  exists field v, In field fields /\ doc !! field = Some v /\ truthy v = true.
Proof using Type.
  assert (E : fold_case case_sensitive "" = "") by (destruct case_sensitive; reflexivity).
  rewrite E. unfold matches. rewrite existsb_exists. split.
  - intros (field & Hin & H). destruct (doc !! field) as [v|] eqn:Hv; [|discriminate].
    apply andb_true_iff in H as [Ht _]. eauto.
  - intros (field & v & Hin & Hv & Ht). exists field. split; [exact Hin|].
    rewrite Hv, Ht, contains_empty. reflexivity.
Qed.

Lemma matching_docs_fold (keyword keyword' : string) (fields : list string)
    (case_sensitive : bool) (all_docs : list document) :
  fold_case case_sensitive keyword = fold_case case_sensitive keyword' ->
  matching_docs float_repr keyword fields case_sensitive all_docs
  = matching_docs float_repr keyword' fields case_sensitive all_docs.
Proof using Type.
  intros E. induction all_docs as [|doc rest IH]; simpl; [reflexivity|].
  unfold _calculate_relevance. rewrite E, IH. reflexivity.
Qed.

(** X20: a search that is not case sensitive does not depend on the case
    of the keyword: two keywords with the same lower-case form give the
    same outcome, result for result. *)
Theorem search_ignores_keyword_case (conn : AstraDBConnection)
    (keyword keyword' : string) (fields : option (list string))
    (category source : option string) (limit : Z) :
  PyStr.lower keyword = PyStr.lower keyword' ->
  search float_repr conn keyword fields category source limit false
  = search float_repr conn keyword' fields category source limit false.
Proof using Type.
  intros E. unfold search.
  destruct (negb (is_connected conn)); [reflexivity|].
  destruct (collection conn) as [coll|e]; [|reflexivity]. simpl.
  destruct (coll_find coll _) as [all_docs|e]; [|reflexivity]. simpl.
  rewrite (matching_docs_fold keyword keyword' _ false all_docs E). reflexivity.
Qed.

Lemma search_inv (conn : AstraDBConnection) (keyword : string)
    (fields : option (list string)) (category source : option string)
    (limit : Z) (case_sensitive : bool) (rs : list document) :
  search float_repr conn keyword fields category source limit case_sensitive
    = Ok rs ->
  exists coll all_docs found,
    collection conn = Ok coll /\
    coll_find coll (keyword_find_args category source limit) = Ok all_docs /\
    Forall2 (scored_from float_repr keyword (fields_or_default fields) case_sensitive)
      (List.filter (gate float_repr keyword (fields_or_default fields) case_sensitive)
                   all_docs) found /\
    rs = slice_to (sort_desc (score_of "relevance_score") found) limit.
Proof using float_repr_nonempty.
  intros H. pose proof H as H'. unfold search in H.
  destruct (negb (is_connected conn)); [discriminate|].
  destruct (collection conn) as [coll|e] eqn:Hcoll; [|discriminate]. simpl in H.
  destruct (coll_find coll _) as [all_docs|e] eqn:Hfind; [|discriminate].
  destruct (search_unfold float_repr float_repr_nonempty conn coll keyword fields
              category source limit case_sensitive all_docs Hcoll Hfind)
    as (found & Hall & Hrun).
  rewrite Hrun in H'. injection H' as <-.
  exists coll, all_docs, found. auto.
Qed.

(** X21: every result of [search] carries a numeric [relevance_score]
    between 0 and 100. *)
Theorem search_scores_in_range (conn : AstraDBConnection) (keyword : string)
    (fields : option (list string)) (category source : option string)
    (limit : Z) (case_sensitive : bool) (rs : list document) :
  search float_repr conn keyword fields category source limit case_sensitive
    = Ok rs ->
  Forall relevance_in_range rs.
Proof using float_repr_nonempty.
  intros H. apply search_inv in H as (coll & all_docs & found & _ & _ & Hall & ->).
  apply List.Forall_forall. intros r Hr. apply In_slice_to in Hr.
  apply (proj1 (In_sort_desc (score_of "relevance_score") found r)) in Hr.
  destruct (Forall2_In_r _ _ _ Hall r Hr) as (d & _ & score & Hscore & _ & ->).
  destruct (calculate_relevance_nonneg float_repr float_repr_nonempty d keyword
              (fields_or_default fields) case_sensitive)
    as (score' & Hscore' & Hnn & Hcap).
  rewrite Hscore in Hscore'. injection Hscore' as <-.
  exists score. split; [apply lookup_insert_eq|].
  split; [apply nonneg_leb_0, Hnn|exact Hcap].
Qed.

(** X22: [search] returns no more documents than the store handed over,
    for a limit that is not negative at most [limit] of them, and none
    at all for limit 0. *)
Theorem search_size (conn : AstraDBConnection) (coll : Collection)
    (keyword : string) (fields : option (list string))
    (category source : option string) (limit : Z) (case_sensitive : bool)
    (all_docs rs : list document) :
  collection conn = Ok coll ->
  coll_find coll (keyword_find_args category source limit) = Ok all_docs ->
  search float_repr conn keyword fields category source limit case_sensitive
    = Ok rs ->
  (length rs <= length all_docs)%nat /\
  (0 <= limit -> Z.of_nat (length rs) <= limit) /\
  (limit = 0 -> rs = []).
Proof using float_repr_nonempty.
  intros Hcoll Hfind H.
  destruct (search_unfold float_repr float_repr_nonempty conn coll keyword fields
              category source limit case_sensitive all_docs Hcoll Hfind)
    as (found & Hall & Hrun).
  rewrite Hrun in H. injection H as <-.
  assert (Hlen : length (sort_desc (score_of "relevance_score") found)
                 = length found).
  { clear. induction found as [|x l IH]; [reflexivity|]. simpl.
    assert (Hins : forall y l', length (insert_desc (score_of "relevance_score") y l')
                                = S (length l')).
    { intros y l'. induction l' as [|z l' IH']; [reflexivity|]. simpl.
      destruct (_ <? _)%float; simpl; [rewrite IH'|]; reflexivity. }
    rewrite Hins, IH. reflexivity. }
  pose proof (Forall2_length _ _ _ Hall) as Hfound.
  pose proof (filter_length_le
                (gate float_repr keyword (fields_or_default fields) case_sensitive)
                all_docs) as Hfilter.
  split; [|split].
  - destruct (slice_to_firstn (sort_desc (score_of "relevance_score") found) limit)
      as [k ->].
    rewrite length_take. lia.
  - intros Hlimit. unfold slice_to. destruct (Z.ltb_spec limit 0); [lia|].
    pose proof (firstn_le_length (Z.to_nat limit)
                  (sort_desc (score_of "relevance_score") found)).
    lia.
  - intros ->. reflexivity.
Qed.

End KeywordSearchMore.

Lemma gate_agrees_with_scorer_witness :
  matches plain_repr unanswered_candidate (fold_case false "Access")
    ["question"; "answer"] false = true <->
  exists field x,
    In field ["question"; "answer"] /\
    field_score plain_repr unanswered_candidate (fold_case false "Access")
                false field = Ok (Some x).
Proof.
  apply (gate_agrees_with_scorer plain_repr). intros x. discriminate.
Defined.

Lemma calculate_relevance_no_match_witness :
  _calculate_relevance plain_repr unanswered_candidate "zebra"
    ["question"; "answer"] false = Ok 0%float.
Proof.
  apply (calculate_relevance_no_match plain_repr). reflexivity.
Defined.

Lemma search_ignores_keyword_case_witness :
  search plain_repr (canned_connection chain_corpus) "Password" None None None 2 false
  = search plain_repr (canned_connection chain_corpus) "PASSWORD" None None None 2
      false.
Proof.
  apply (search_ignores_keyword_case plain_repr). reflexivity.
Defined.

Lemma search_scores_in_range_witness :
  exists rs,
    search plain_repr (canned_connection chain_corpus) "Password" None None None
      2 false = Ok rs /\
    Forall relevance_in_range rs.
Proof.
  eexists. split; [reflexivity|].
  apply (search_scores_in_range plain_repr ltac:(intros x; discriminate)
           (canned_connection chain_corpus) "Password" None None None 2 false).
  reflexivity.
Defined.

Lemma search_size_witness :
  exists rs,
    search plain_repr (canned_connection chain_corpus) "Password" None None None
      2 false = Ok rs /\
    (length rs <= length chain_corpus)%nat /\
    (0 <= 2 -> Z.of_nat (length rs) <= 2) /\
    (2 = 0 -> rs = []).
Proof.
  eexists. split; [reflexivity|].
  apply (search_size plain_repr ltac:(intros x; discriminate)
           (canned_connection chain_corpus) (canned_collection chain_corpus)
           "Password" None None None 2 false);
    reflexivity.
Defined.

(** ** Cosine similarity: zero vectors, failures, symmetry *)

Section CosineMore.
Import FloatFacts.

(** X23: the cosine similarity of any vector with a vector whose
    components are all zero is exactly 0.0, in either argument order and
    whatever the two lengths. *)
Theorem cosine_with_zero_vector (vec zero : list float) :
  Forall (fun x => PrimFloat.eqb x 0%float = true) zero ->
  _cosine_similarity vec zero = Ok 0%float /\
  _cosine_similarity zero vec = Ok 0%float.
Proof.
  intros Hz. pose proof (zero_vector_magnitude zero Hz) as Hm.
  rewrite !cosine_unfold, Hm, orb_true_r. simpl. split; reflexivity.
Qed.

(** X24: [_cosine_similarity] never raises from [math.sqrt]: on every
    pair of vectors it returns a score or raises ZeroDivisionError. *)
Theorem cosine_fails_only_by_division (vec1 vec2 : list float) :
  (exists score, _cosine_similarity vec1 vec2 = Ok score) \/
  _cosine_similarity vec1 vec2 = Raise ZeroDivisionError.
Proof.
  rewrite cosine_unfold.
  destruct (_ || _); [left; eauto|].
  unfold PyFloat.truediv. destruct (_ =? _)%float; [right; reflexivity|left; eauto].
Qed.

Lemma SFmul_comm (prec emax : Z) (x y : spec_float) :
  SFmul prec emax x y = SFmul prec emax y x.
Proof.
  destruct x as [sx|sx| |sx mx ex], y as [sy|sy| |sy my ey]; simpl;
    try reflexivity; rewrite (xorb_comm sx sy); try reflexivity.
  rewrite (Pos.mul_comm mx my), (Z.add_comm ex ey). reflexivity.
Qed.

Lemma float_mul_comm (x y : float) : (x * y)%float = (y * x)%float.
Proof.
  apply Prim2SF_inj. rewrite !FloatAxioms.mul_spec. apply SFmul_comm.
Qed.

Lemma dot_product_comm (vec1 : list float) : forall vec2,
  dot_product vec1 vec2 = dot_product vec2 vec1.
Proof.
  unfold dot_product, PyFloat.sum. generalize 0%float.
  induction vec1 as [|x vec1 IH]; intros acc [|y vec2]; simpl; try reflexivity.
  rewrite (float_mul_comm x y). apply IH.
Qed.

(** X25: cosine similarity is symmetric, bit for bit: swapping the two
    vectors gives the same score or the same error. *)
Theorem cosine_symmetric (vec1 vec2 : list float) :
  _cosine_similarity vec1 vec2 = _cosine_similarity vec2 vec1.
Proof.
  rewrite !cosine_unfold, (dot_product_comm vec1 vec2),
    (float_mul_comm (magnitude vec1) (magnitude vec2)), orb_comm.
  reflexivity.
Qed.

End CosineMore.

Lemma cosine_with_zero_vector_witness :
  _cosine_similarity [3%float; 4%float] [0%float; 0%float; 0%float] = Ok 0%float /\
  _cosine_similarity [0%float; 0%float; 0%float] [3%float; 4%float] = Ok 0%float.
Proof.
  apply cosine_with_zero_vector. repeat constructor.
Defined.

(** ** Database operations *)

Section OperationsFacts.

Variable float_repr : float -> string.

Lemma regenerate_fails (model : result encoder) (text : value)
    (update_data : document) :
  (forall m, model = Ok m -> exists e, m text = Raise e) ->
  fst (regenerate model text update_data) = Ok update_data.
Proof.
  intros Hfail. unfold regenerate. destruct model as [m|e]; [|reflexivity].
  destruct (Hfail m eq_refl) as [e ->]. reflexivity.
Qed.

(** X26: when the embedding model cannot be loaded, or fails on the
    text, [update_document] with vector regeneration still performs the
    update: its outcome is that of the same call without regeneration. *)
Theorem update_document_soft_degradation (coll : WriteCollection)
    (model : result encoder) (now doc_id : string) (update_data : document)
    (upsert : bool) (found : option document) :
  wc_find_one coll {[ "_id" := CEq (VStr doc_id) ]} = Ok found ->
  (forall m cd, model = Ok m -> found = Some cd ->
     exists e, m (combined_text float_repr
                    (<["last_modified" := VStr now]> update_data) cd) = Raise e) ->
  fst (update_document float_repr (Ok coll) model now doc_id update_data upsert true)
  = fst (update_document float_repr (Ok coll) model now doc_id update_data upsert
           false).
Proof.
  intros Hfound Hfail. unfold update_document, get_document_by_id.
  unfold mbind at 1 4. unfold traced_bind. simpl.
  destruct (bool_decide _ || bool_decide _); [|reflexivity].
  unfold lift, mbind, result_bind, traced_bind, mret, traced_ret. simpl.
  rewrite Hfound. simpl.
  destruct found as [cd|]; [|reflexivity].
  destruct (decide (dom cd = ∅)); [reflexivity|].
  rewrite regenerate_fails by (intros m Hm; exact (Hfail m cd Hm eq_refl)).
  reflexivity.
Qed.

Lemma update_document_trace (coll : WriteCollection) (doc_id : string)
    (upsert : bool) (pre : traced document) :
  snd (update_data' ← pre;
       c ← lift (Ok coll);
       outcome ← lift (wc_update_one c {[ "_id" := CEq (VStr doc_id) ]}
                         update_data' upsert);
       match update_info outcome with
       | Some info =>
           matched ← lift (gt_zero (get info "n" (VNum 0%float)));
           (mret (matched && eq_one (get info "ok" (VNum 0%float))) : traced bool)
       | None => (mret true : traced bool)
       end)
  = snd pre.
Proof.
  unfold mbind, traced_bind, mret, traced_ret, lift. simpl.
  destruct (fst pre) as [d|e]; simpl; [|reflexivity].
  destruct (wc_update_one coll _ d upsert) as [[[info|]]|e]; simpl;
    rewrite ?app_nil_r; try reflexivity.
  destruct (gt_zero _); simpl; rewrite ?app_nil_r; reflexivity.
Qed.

(** X27: when [update_document] regenerates the vector, the embedder is
    called once, on the question and answer merged from the update and
    the stored document: on the merged question alone when the merged
    answer is empty, "unanswered" or "N/A", and on question and answer
    joined by a space when both are non-empty strings and the answer is
    none of these. *)
Theorem update_document_embeds (coll : WriteCollection) (m : encoder)
    (now doc_id : string) (update_data : document) (upsert : bool)
    (cd : document) (i : value) :
  wc_find_one coll {[ "_id" := CEq (VStr doc_id) ]} = Ok (Some cd) ->
  cd !! "_id" = Some i ->
  is_Some (update_data !! "question") \/ is_Some (update_data !! "answer") ->
  let sent := <["last_modified" := VStr now]> update_data in
  snd (update_document float_repr (Ok coll) (Ok m) now doc_id update_data upsert
         true)
  = [combined_text float_repr sent cd] /\
  (forall s, merged_field sent cd "answer" = VStr s ->
             In s ["unanswered"; "N/A"; ""] ->
             combined_text float_repr sent cd = merged_field sent cd "question") /\
  (forall q a, merged_field sent cd "question" = VStr q ->
               merged_field sent cd "answer" = VStr a ->
               q <> "" -> ~ In a ["unanswered"; "N/A"; ""] ->
               combined_text float_repr sent cd = VStr (q +:+ " " +:+ a)).
Proof.
  intros Hfound Hid Hkeys sent. split; [|split].
  - unfold update_document. fold sent. rewrite update_document_trace.
    assert (Hcond : bool_decide (is_Some (sent !! "question"))
                    || bool_decide (is_Some (sent !! "answer")) = true).
    { unfold sent. rewrite !lookup_insert_ne by discriminate.
      apply orb_true_iff.
      destruct Hkeys as [H|H]; [left|right]; apply bool_decide_eq_true_2, H. }
    rewrite Hcond. simpl.
    unfold get_document_by_id, lift, mbind, result_bind, traced_bind. simpl.
    rewrite Hfound. simpl.
    destruct (decide (dom cd = ∅)) as [Hdom|_].
    { apply dom_empty_inv_L in Hdom. subst cd. rewrite lookup_empty in Hid.
      discriminate. }
    unfold regenerate. destruct (m _); reflexivity.
  - intros s Hs Hin. unfold combined_text. cbv zeta. rewrite Hs.
    assert (Hskip : truthy (VStr s)
                    && negb (existsb (eq_str (VStr s)) ["unanswered"; "N/A"; ""])
                    = false)
      by (destruct Hin as [<-|[<-|[<-|[]]]]; reflexivity).
    rewrite <- andb_assoc, Hskip, andb_false_r. reflexivity.
  - intros q a Hq Ha Hne Hnot. unfold combined_text. cbv zeta. rewrite Hq, Ha.
    assert (Htq : truthy (VStr q) = true).
    { destruct q; [congruence|reflexivity]. }
    assert (Hkeep : truthy (VStr a)
                    && negb (existsb (eq_str (VStr a)) ["unanswered"; "N/A"; ""])
                    = true).
    { simpl. destruct (String.eqb_spec a "unanswered") as [->|_];
        [exfalso; apply Hnot; simpl; tauto|].
      destruct (String.eqb_spec a "N/A") as [->|_];
        [exfalso; apply Hnot; simpl; tauto|].
      destruct (String.eqb_spec a "") as [->|Hemp];
        [exfalso; apply Hnot; simpl; tauto|].
      destruct a; [congruence|reflexivity]. }
    rewrite <- andb_assoc, Hkeep, Htq. reflexivity.
Qed.

End OperationsFacts.

Lemma update_document_soft_degradation_witness :
  fst (update_document plain_repr (Ok (canned_writes open_pair))
         (Ok failing_encoder) "2024-01-01T00:00:00" "U" new_question false true)
  = fst (update_document plain_repr (Ok (canned_writes open_pair))
           (Ok failing_encoder) "2024-01-01T00:00:00" "U" new_question false
           false).
Proof.
  apply (update_document_soft_degradation plain_repr (canned_writes open_pair)
           (Ok failing_encoder) "2024-01-01T00:00:00" "U" new_question false
           (Some open_pair)).
  - reflexivity.
  - intros m cd Hm _. injection Hm as <-.
    exists (EmbedderError "encode failed"). reflexivity.
Defined.

Lemma update_document_embeds_witness :
  snd (update_document plain_repr (Ok (canned_writes open_pair))
         (Ok constant_encoder) "2024-01-01T00:00:00" "U" new_question false true)
  = [combined_text plain_repr
       (<["last_modified" := VStr "2024-01-01T00:00:00"]> new_question)
       open_pair] /\
  combined_text plain_repr
    (<["last_modified" := VStr "2024-01-01T00:00:00"]> new_question) open_pair
  = VStr "Who grants access?".
Proof.
  destruct (update_document_embeds plain_repr (canned_writes open_pair)
              constant_encoder "2024-01-01T00:00:00" "U" new_question false
              open_pair (VStr "U") eq_refl eq_refl
              (or_introl (ex_intro _ _ eq_refl))) as [Htrace [Htext _]].
  split; [exact Htrace|].
  exact (Htext "unanswered" eq_refl (or_introl eq_refl)).
Defined.

(** ** The fetch loop of [delete-unanswered] *)

(** X28: the loop that collects the unanswered documents asks the same
    question each round (no skip is passed on): when the store answers
    with fewer than 1000 documents the loop ends after one fetch with
    exactly that batch, and when it answers with 1000 or more the loop
    never ends. *)
Theorem fetch_unanswered_rounds (conn : AstraDBConnection)
    (batch : list document) :
  get_documents conn (Some {[ "answer" := CEq (VStr "unanswered") ]}) 1000 0 None
    = Ok batch ->
  ((length batch < 1000)%nat ->
   forall fuel acc, fetch_unanswered (S fuel) conn acc = Some (Ok (acc ++ batch))) /\
  ((1000 <= length batch)%nat ->
   forall fuel acc, fetch_unanswered fuel conn acc = None).
Proof.
  intros Hget. split.
  - intros Hlen fuel acc. cbn [fetch_unanswered]. rewrite Hget.
    destruct batch as [|b bs]; [rewrite app_nil_r; reflexivity|].
    destruct (Z.ltb_spec (Z.of_nat (length (b :: bs))) 1000); [reflexivity|lia].
  - intros Hlen fuel. induction fuel as [|fuel IH]; intros acc; [reflexivity|].
    cbn [fetch_unanswered]. rewrite Hget.
    destruct batch as [|b bs]; [simpl in Hlen; lia|].
    destruct (Z.ltb_spec (Z.of_nat (length (b :: bs))) 1000); [lia|]. apply IH.
Qed.

Lemma fetch_unanswered_rounds_witness :
  fetch_unanswered 1 (canned_connection chain_corpus) [] = Some (Ok chain_corpus) /\
  fetch_unanswered 7 (canned_connection (repeat open_pair 1000)) [] = None.
Proof.
  split.
  - apply (proj1 (fetch_unanswered_rounds (canned_connection chain_corpus)
                    chain_corpus eq_refl)).
    simpl. lia.
  - apply (proj2 (fetch_unanswered_rounds
                    (canned_connection (repeat open_pair 1000))
                    (repeat open_pair 1000) eq_refl)).
    rewrite repeat_length. lia.
Defined.
